(** * clawdbot-arena: the asset extractor (scripts/extract_assets.py)

    A shallow embedding of the asset extraction script and the properties
    of its region extractor, background keying filter and spritesheet
    slicer.

    Python integers are [Z].  Image objects live in a heap of rasters
    (the script mutates a cropped image in place through its pixel access
    object); the file system and the console are part of the world that
    the script's functions transform.  Exceptions of class [Exception]
    are results of the computation, as [try]/[except Exception] sees
    them. *)

From Stdlib Require Import Ascii.
From stdpp Require Import gmap strings list pretty.

Local Open Scope Z_scope.

(** ** Pixels and rasters *)

(** An RGBA pixel as the pixel access object returns it: [(r, g, b, a)]. *)
Definition pixel : Type := Z * Z * Z * Z.

Inductive mode := L | RGB | RGBA.

Global Instance mode_eq_dec : EqDecision mode.
Proof. solve_decision. Defined.

(** A raster: its mode, its [size] as [(width, height)], and its rows of
    pixels, row [y] holding the pixels [(0, y)], [(1, y)], ...  Pixels
    are kept in their RGBA expansion whatever the mode (an opaque alpha
    for [L] and [RGB]), so that [convert('RGBA')] keeps the rows. *)
Record image := Image {
  im_mode : mode;
  im_size : Z * Z;
  im_rows : list (list pixel)
}.

Definition width (im : image) : Z := (im_size im).1.
Definition height (im : image) : Z := (im_size im).2.

(** The rows of a raster agree with its size. *)
Definition well_formed (im : image) : Prop :=
  0 ≤ width im ∧ 0 ≤ height im ∧
  length (im_rows im) = Z.to_nat (height im) ∧
  Forall (λ row, length row = Z.to_nat (width im)) (im_rows im).

(** The pixel at [(x, y)], when it is inside the raster. *)
Definition pixel_at (im : image) (x y : Z) : option pixel :=
  if bool_decide (0 ≤ x < width im ∧ 0 ≤ y < height im) then
    row ← im_rows im !! Z.to_nat y; row !! Z.to_nat x
  else None.

Definition set_pixel_at (im : image) (x y : Z) (p : pixel) : image :=
  Image (im_mode im) (im_size im)
        (alter (λ row, <[Z.to_nat x := p]> row) (Z.to_nat y) (im_rows im)).

(** A raster of one colour ([Image.new]). *)
Definition solid (m : mode) (w h : Z) (p : pixel) : image :=
  Image m (w, h) (replicate (Z.to_nat h) (replicate (Z.to_nat w) p)).

(** ** The keying rule on one pixel

    The body of the two loops of [remove_checkered_background], as a
    function of the pixel it reads. *)

Definition near_gray (r g b : Z) : bool :=
  (Z.abs (r - g) <? 10) && (Z.abs (g - b) <? 10) && (Z.abs (r - b) <? 10).

Definition in_gray_range (r : Z) : bool := (180 <=? r) && (r <=? 220).

Definition key_pixel (p : pixel) : pixel :=
  let '(r, g, b, a) := p in
  if near_gray r g b then
    if in_gray_range r then (r, g, b, 0) else p
  else p.

Definition key_image (im : image) : image :=
  Image (im_mode im) (im_size im) (fmap (M:=list) key_pixel <$> im_rows im).

(** ** Exceptions, files and the world *)

Inductive exn :=
  | ValueError (msg : string)
  | IndexError (msg : string)
  | ZeroDivisionError (msg : string)
  | FileNotFoundError (msg : string)
  | UnidentifiedImageError (msg : string)
  | OSError (msg : string)
  | ReferenceError (msg : string).

(** [str(e)] *)
Definition exn_str (e : exn) : string :=
  match e with
  | ValueError m | IndexError m | ZeroDivisionError m | FileNotFoundError m
  | UnidentifiedImageError m | OSError m | ReferenceError m => m
  end.

(** The values [json.dump] is given by the script. *)
#[local] Unset Elimination Schemes.
Inductive json :=
  | JInt (n : Z)
  | JList (l : list json)
  | JDict (d : list (string * json)).
#[local] Set Elimination Schemes.

Inductive file :=
  | ImageFile (im : image)
  | JsonFile (v : json)
  | Directory.

(** The calls that the operating system (or the encoder) may refuse. *)
Inductive syscall :=
  | SaveImage (path : string) (im : image)
  | MakeDirs (path : string)
  | OpenWrite (path : string).

Record world := World {
  heap : gmap nat image;
  disk : gmap string file;
  console : list string;
  (** the verdict of the environment on a call, given the disk *)
  fault : syscall → gmap string file → option exn
}.

Definition set_heap (f : gmap nat image → gmap nat image) (w : world) : world :=
  World (f (heap w)) (disk w) (console w) (fault w).
Definition set_disk (f : gmap string file → gmap string file) (w : world) : world :=
  World (heap w) (f (disk w)) (console w) (fault w).
Definition set_console (f : list string → list string) (w : world) : world :=
  World (heap w) (disk w) (f (console w)) (fault w).

(** ** The monad of the script: state and exceptions *)

Inductive result (A : Type) :=
  | Ok (a : A)
  | Raise (e : exn).
Global Arguments Ok {A} a.
Global Arguments Raise {A} e.

Definition M (A : Type) : Type := world → result A * world.

Global Instance M_ret : MRet M := λ A a w, (Ok a, w).
Global Instance M_bind : MBind M := λ A B k m w,
  match m w with
  | (Ok a, w') => k a w'
  | (Raise e, w') => (Raise e, w')
  end.

Definition raise {A} (e : exn) : M A := λ w, (Raise e, w).

(** [try: body except Exception as e: handler e] *)
Definition try_except {A} (body : M A) (handler : exn → M A) : M A := λ w,
  match body w with
  | (Ok a, w') => (Ok a, w')
  | (Raise e, w') => handler e w'
  end.

(** [for x in xs: body x] *)
Fixpoint for_each {A} (xs : list A) (body : A → M unit) : M unit :=
  match xs with
  | [] => mret ()
  | x :: xs' => body x ≫= λ _, for_each xs' body
  end.

(** [range(n)] *)
Definition range (n : Z) : list Z := seqZ 0 n.

Definition print (s : string) : M unit := λ w,
  (Ok (), set_console (λ c, c ++ [s]) w).

(** ** The imaging library, as the script uses it

    [Image.open], [convert], [size], [load] and pixel access, [crop] and
    [save] of Pillow.  An image object is a location of the heap. *)

Definition deref (l : nat) : M image := λ w,
  match heap w !! l with
  | Some im => (Ok im, w)
  | None => (Raise (ReferenceError "no such object"), w)
  end.

Definition alloc (im : image) : M nat := λ w,
  let l := fresh (dom (heap w)) in (Ok l, set_heap <[l := im]> w).

Definition store (l : nat) (im : image) : M unit := λ w,
  (Ok (), set_heap <[l := im]> w).

(** [Image.open(path)]: a new image object with the contents of the file. *)
Definition Image_open (path : string) : M nat := λ w,
  match disk w !! path with
  | Some (ImageFile im) => alloc im w
  | Some (JsonFile _) =>
      (Raise (UnidentifiedImageError ("cannot identify image file " +:+ path)), w)
  | Some Directory => (Raise (OSError ("Permission denied: " +:+ path)), w)
  | None => (Raise (FileNotFoundError ("No such file or directory: " +:+ path)), w)
  end.

(** [image.convert('RGBA')]: a new object; the modes without alpha become
    opaque. *)
Definition opaque (p : pixel) : pixel := let '(r, g, b, _) := p in (r, g, b, 255).

Definition to_RGBA (im : image) : image :=
  Image RGBA (im_size im)
    (match im_mode im with
     | RGBA => im_rows im
     | _ => fmap (M:=list) opaque <$> im_rows im
     end).

Definition convert_RGBA (l : nat) : M nat :=
  im ← deref l; alloc (to_RGBA im).

Definition get_mode (l : nat) : M mode := im ← deref l; mret (im_mode im).
Definition get_size (l : nat) : M (Z * Z) := im ← deref l; mret (im_size im).

(** Pixel access [pixels[x, y]]; a negative index counts from the end. *)
Definition norm_index (i n : Z) : Z := if i <? 0 then i + n else i.

Definition getpixel (pixels : nat) (x y : Z) : M pixel :=
  im ← deref pixels;
  match pixel_at im (norm_index x (width im)) (norm_index y (height im)) with
  | Some p => mret p
  | None => raise (IndexError "image index out of range")
  end.

Definition putpixel (pixels : nat) (x y : Z) (p : pixel) : M unit :=
  im ← deref pixels;
  let x' := norm_index x (width im) in
  let y' := norm_index y (height im) in
  if bool_decide (0 ≤ x' < width im ∧ 0 ≤ y' < height im) then
    store pixels (set_pixel_at im x' y' p)
  else raise (IndexError "image index out of range").

(** The raster that [crop] cuts out of [im]: the box may reach outside
    the image, where the pixels are zero. *)
Definition crop_image (im : image) (box : Z * Z * Z * Z) : image :=
  let '(x0, y0, x1, y1) := box in
  Image (im_mode im) (x1 - x0, y1 - y0)
    ((λ y, (λ x, default (0, 0, 0, 0) (pixel_at im x y)) <$> seqZ x0 (x1 - x0))
       <$> seqZ y0 (y1 - y0)).

(** [image.crop(box)] with [box = (left, upper, right, lower)]: a new
    object; an inverted box is refused. *)
Definition crop (l : nat) (box : Z * Z * Z * Z) : M nat :=
  let '(x0, y0, x1, y1) := box in
  if x1 <? x0 then
    raise (ValueError "Coordinate 'right' is less than 'left'")
  else if y1 <? y0 then
    raise (ValueError "Coordinate 'lower' is less than 'upper'")
  else
    im ← deref l; alloc (crop_image im box).

(** Writing the encoded image, unless the environment refuses. *)
Definition write_image (path : string) (im : image) : M unit := λ w,
  match fault w (SaveImage path im) (disk w) with
  | Some e => (Raise e, w)
  | None => (Ok (), set_disk <[path := ImageFile im]> w)
  end.

(** [image.save(path, 'PNG')] *)
Definition save (l : nat) (path : string) : M unit :=
  im ← deref l; write_image path im.

(** ** The operating system, as the script uses it *)

Definition os_sep : string := "\".

(** [os.path.join(a, b)] for a relative [b]. *)
Definition os_path_join (a b : string) : string := a +:+ os_sep +:+ b.

Definition os_path_exists (path : string) : M bool := λ w,
  (Ok (bool_decide (is_Some (disk w !! path))), w).

(** [os.makedirs(path, exist_ok=True)] *)
Definition os_makedirs (path : string) : M unit := λ w,
  match fault w (MakeDirs path) (disk w) with
  | Some e => (Raise e, w)
  | None =>
      match disk w !! path with
      | Some Directory => (Ok (), w)
      | Some _ => (Raise (OSError ("File exists: " +:+ path)), w)
      | None => (Ok (), set_disk <[path := Directory]> w)
      end
  end.

(** [with open(path, 'w') as f: json.dump(v, f, indent=2)] *)
Definition json_dump_to (path : string) (v : json) : M unit := λ w,
  match fault w (OpenWrite path) (disk w) with
  | Some e => (Raise e, w)
  | None => (Ok (), set_disk <[path := JsonFile v]> w)
  end.

(** ** String formatting *)

Definition nl : string := String "010"%char EmptyString.

Definition mode_str (m : mode) : string :=
  match m with L => "L" | RGB => "RGB" | RGBA => "RGBA" end.

(** [str] of a pair of integers. *)
Definition pair_str (p : Z * Z) : string :=
  "(" +:+ pretty p.1 +:+ ", " +:+ pretty p.2 +:+ ")".

(** The format [{i:02d}]. *)
Definition fmt_02d (i : Z) : string :=
  let s := pretty i in
  if (String.length s <? 2)%nat then "0" +:+ s else s.

(** [for x in xs: s = body x s], for a loop that updates a local variable. *)
Fixpoint for_fold {A S} (xs : list A) (s : S) (body : A → S → M S) : M S :=
  match xs with
  | [] => mret s
  | x :: xs' => s' ← body x s; for_fold xs' s' body
  end.

(** [l[i]] on a Python list. *)
Definition list_index {A} (l : list A) (i : Z) : M A :=
  let i' := norm_index i (Z.of_nat (length l)) in
  match (if i' <? 0 then None else l !! Z.to_nat i') with
  | Some a => mret a
  | None => raise (IndexError "list index out of range")
  end.

(** ** The script *)

Definition SOURCE_IMAGE : string := "C:\Users\skadd\OneDrive\Desktop\Game assets.jpg".

Definition OUTPUT_BASE : string := "C:\Users\skadd\clawdbot-arena\apps\web\public\assets".

(** A value of the [ASSETS] dictionary. *)
Record asset_info := AssetInfo {
  region : Z * Z * Z * Z;
  description : string
}.

(** The [ASSETS] dictionary, in the order of its items. *)
Definition ASSETS : list (string * asset_info) := [
  ("sprites/fighters/alphabot/spritesheet.png",
   AssetInfo (0, 12, 295, 115) "AlphaBot fighter sprites (8 frames)");
  ("sprites/fighters/neuralknight/spritesheet.png",
   AssetInfo (0, 140, 295, 115) "NeuralKnight fighter sprites (8 frames)");
  ("sprites/fighters/quantumfist/spritesheet.png",
   AssetInfo (0, 268, 295, 115) "QuantumFist fighter sprites (8 frames)");
  ("sprites/fighters/ironlogic/spritesheet.png",
   AssetInfo (0, 396, 295, 115) "IronLogic fighter sprites (8 frames)");
  ("backgrounds/cyber-colosseum/layer1-far.png",
   AssetInfo (305, 12, 175, 45) "Cyber Colosseum far background");
  ("backgrounds/cyber-colosseum/layer2-mid.png",
   AssetInfo (305, 62, 175, 45) "Cyber Colosseum mid background");
  ("backgrounds/cyber-colosseum/layer3-near.png",
   AssetInfo (305, 112, 175, 60) "Cyber Colosseum near background");
  ("backgrounds/factory-floor/layer1-far.png",
   AssetInfo (490, 12, 175, 45) "Factory Floor far background");
  ("backgrounds/factory-floor/layer2-mid.png",
   AssetInfo (490, 62, 175, 45) "Factory Floor mid background");
  ("backgrounds/factory-floor/layer3-near.png",
   AssetInfo (490, 112, 175, 60) "Factory Floor near background");
  ("backgrounds/digital-void/layer1-far.png",
   AssetInfo (675, 12, 175, 45) "Digital Void far background");
  ("backgrounds/digital-void/layer2-mid.png",
   AssetInfo (675, 62, 175, 45) "Digital Void mid background");
  ("backgrounds/digital-void/layer3-near.png",
   AssetInfo (675, 112, 175, 60) "Digital Void near background");
  ("ui/health-bar.png", AssetInfo (305, 185, 200, 40) "Health bar UI");
  ("ui/combo-counter.png", AssetInfo (515, 185, 80, 70) "Combo counter UI");
  ("ui/round-indicators.png", AssetInfo (605, 185, 100, 70) "Round indicators");
  ("ui/announcer-text.png",
   AssetInfo (860, 12, 155, 160) "Announcer text (FIGHT, KO, etc)");
  ("ui/timer.png", AssetInfo (715, 185, 85, 50) "Timer display");
  ("ui/betting-frame.png", AssetInfo (860, 185, 155, 200) "Betting panel frame");
  ("sprites/effects/hit-spark.png",
   AssetInfo (305, 240, 140, 75) "Hit spark effect frames");
  ("sprites/effects/heavy-hit.png",
   AssetInfo (455, 240, 140, 75) "Heavy hit effect frames");
  ("sprites/effects/block.png",
   AssetInfo (605, 240, 90, 90) "Block/parry effect frames");
  ("sprites/effects/dust.png",
   AssetInfo (700, 270, 100, 50) "Dust cloud effect frames");
  ("sprites/effects/ko-explosion.png",
   AssetInfo (305, 330, 100, 90) "KO explosion effect");
  ("sprites/effects/energy-charge.png",
   AssetInfo (415, 330, 100, 90) "Energy charge effect");
  ("sprites/fighters/alphabot/portrait.png",
   AssetInfo (525, 400, 90, 110) "AlphaBot portrait");
  ("sprites/fighters/neuralknight/portrait.png",
   AssetInfo (625, 400, 90, 110) "NeuralKnight portrait");
  ("sprites/fighters/quantumfist/portrait.png",
   AssetInfo (725, 400, 90, 110) "QuantumFist portrait");
  ("sprites/fighters/ironlogic/portrait.png",
   AssetInfo (825, 400, 90, 110) "IronLogic portrait")
].

Definition create_directories : M unit :=
  let dirs := [
    "sprites/fighters/alphabot";
    "sprites/fighters/neuralknight";
    "sprites/fighters/quantumfist";
    "sprites/fighters/ironlogic";
    "sprites/effects";
    "backgrounds/cyber-colosseum";
    "backgrounds/factory-floor";
    "backgrounds/digital-void";
    "ui"
  ] in
  for_each dirs (λ d,
    let path := os_path_join OUTPUT_BASE d in
    os_makedirs path;;
    print ("Created directory: " +:+ path)).

(** The body of the loops of [remove_checkered_background] at [(x, y)]. *)
Definition key_at (pixels : nat) (x y : Z) : M unit :=
  '(r, g, b, a) ← getpixel pixels x y;
  if (Z.abs (r - g) <? 10) && (Z.abs (g - b) <? 10) && (Z.abs (r - b) <? 10) then
    if (180 <=? r) && (r <=? 220) then
      putpixel pixels x y (r, g, b, 0)
    else mret ()
  else mret ().

(** [remove_checkered_background(image)]; the list [transparent_colors]
    of the source is never read. *)
Definition remove_checkered_background (image : nat) : M nat :=
  m ← get_mode image;
  image ← (if bool_decide (m ≠ RGBA) then convert_RGBA image else mret image);
  let pixels := image in
  '(width, height) ← get_size image;
  for_each (range height) (λ y,
    for_each (range width) (λ x, key_at pixels x y));;
  mret image.

(** The clamped crop box of a region, for a source of size [size]. *)
Definition clamped_box (region : Z * Z * Z * Z) (size : Z * Z) : Z * Z * Z * Z :=
  let '(x, y, w, h) := region in
  let crop_box := (x, y, x + w, y + h) in
  let '(c0, c1, c2, c3) := crop_box in
  (Z.max 0 c0, Z.max 0 c1, Z.min size.1 c2, Z.min size.2 c3).

(** The messages of the loop of [extract_assets]. *)
Definition ok_message (output_path : string) (w h : Z) : string :=
  "[OK] Extracted: " +:+ output_path +:+
  " (" +:+ pretty w +:+ "x" +:+ pretty h +:+ ")".

Definition error_message (output_path : string) (e : exn) : string :=
  "[ERROR] Error extracting " +:+ output_path +:+ ": " +:+ exn_str e.

Definition count_message (extracted_count total : Z) : string :=
  nl +:+ "Extracted " +:+ pretty extracted_count +:+ "/" +:+
  pretty total +:+ " assets".

(** The [try] block of the loop of [extract_assets]: crop, key, save. *)
Definition extract_one (source : nat) (output_path : string)
    (asset_info : asset_info) : M unit :=
  let '(x, y, w, h) := region asset_info in
  size ← get_size source;
  let crop_box := clamped_box (region asset_info) size in
  cropped ← crop source crop_box;
  cropped ← remove_checkered_background cropped;
  let full_output_path := os_path_join OUTPUT_BASE output_path in
  save cropped full_output_path;;
  print (ok_message output_path w h).

(** One turn of the loop of [extract_assets]. *)
Definition extract_item (source : nat) (item : string * asset_info)
    (extracted_count : Z) : M Z :=
  let '(output_path, asset_info) := item in
  try_except
    (extract_one source output_path asset_info;;
     mret (extracted_count + 1))
    (λ e,
       print (error_message output_path e);;
       mret extracted_count).

(** The loop of [extract_assets] and the count it prints. *)
Definition extract_loop (assets : list (string * asset_info)) (source : nat) : M unit :=
  extracted_count ← for_fold assets 0 (extract_item source);
  print (count_message extracted_count (Z.of_nat (length assets))).

(** The [try] block that loads the source image. *)
Definition load_source (source_path : string) : M nat :=
  source ← Image_open source_path;
  m ← get_mode source;
  source ← (if bool_decide (m ≠ RGBA) then convert_RGBA source else mret source);
  size ← get_size source;
  print ("Image size: " +:+ pair_str size);;
  m ← get_mode source;
  print ("Image mode: " +:+ mode_str m);;
  mret source.

(** [extract_assets(source_path)], for the table [assets]. *)
Definition extract_assets_from (assets : list (string * asset_info))
    (source_path : string) : M bool :=
  print (nl +:+ "Loading source image: " +:+ source_path);;
  loaded ← try_except
    (source ← load_source source_path; mret (Some source))
    (λ e, print ("Error loading image: " +:+ exn_str e);; mret None);
  match loaded with
  | None => mret false
  | Some source => extract_loop assets source;; mret true
  end.

Definition extract_assets : string → M bool := extract_assets_from ASSETS.

(** The keys of the [animations] dictionary of [split_fighter_spritesheet],
    in order. *)
Definition animation_names : list string :=
  ["idle"; "walk"; "jump"; "attack1"; "attack2"; "special"; "hit"; "ko"].

(** The name of the frame [frame_idx]. *)
Definition anim_name_for (frame_idx : Z) : M string :=
  if frame_idx <? Z.of_nat (length animation_names) then
    list_index animation_names frame_idx
  else mret ("frame_" +:+ pretty frame_idx).

(** The body of the loops of [split_fighter_spritesheet]. *)
Definition fighter_frame (sheet : nat) (output_dir : string)
    (actual_frame_width actual_frame_height : Z) (row col frame_idx : Z) : M Z :=
  let x := col * actual_frame_width in
  let y := row * actual_frame_height in
  frame ← crop sheet (x, y, x + actual_frame_width, y + actual_frame_height);
  anim_name ← anim_name_for frame_idx;
  let frame_path := os_path_join output_dir (anim_name +:+ ".png") in
  save frame frame_path;;
  mret (frame_idx + 1).

Definition split_fighter_spritesheet (fighter_name : string)
    (frame_width frame_height : Z) : M unit :=
  let spritesheet_path :=
    os_path_join OUTPUT_BASE ("sprites/fighters/" +:+ fighter_name +:+ "/spritesheet.png") in
  let output_dir := os_path_join OUTPUT_BASE ("sprites/fighters/" +:+ fighter_name) in
  found ← os_path_exists spritesheet_path;
  if negb found then
    print ("Spritesheet not found: " +:+ spritesheet_path)
  else
    try_except
      (sheet ← Image_open spritesheet_path;
       m ← get_mode sheet;
       sheet ← (if bool_decide (m ≠ RGBA) then convert_RGBA sheet else mret sheet);
       '(sheet_width, sheet_height) ← get_size sheet;
       let frames_per_row := 4 in
       let actual_frame_width := sheet_width `div` frames_per_row in
       let actual_frame_height := sheet_height `div` 2 in
       print (nl +:+ "  " +:+ fighter_name +:+ ": sheet=" +:+ pretty sheet_width +:+
              "x" +:+ pretty sheet_height +:+ ", frame=" +:+
              pretty actual_frame_width +:+ "x" +:+ pretty actual_frame_height);;
       frame_idx ← for_fold (range 2) 0 (λ row frame_idx,
         for_fold (range 4) frame_idx (λ col frame_idx,
           fighter_frame sheet output_dir actual_frame_width actual_frame_height
             row col frame_idx));
       print ("  [OK] Split " +:+ fighter_name +:+ " into " +:+ pretty frame_idx +:+
              " frames"))
      (λ e, print ("  [ERROR] Error splitting " +:+ fighter_name +:+ ": " +:+ exn_str e)).

(** The body of the loop of [split_effect_spritesheet]. *)
Definition effect_frame (sheet : nat) (output_dir : string)
    (frame_width sheet_height : Z) (i : Z) : M unit :=
  let x := i * frame_width in
  frame ← crop sheet (x, 0, x + frame_width, sheet_height);
  let frame_path := os_path_join output_dir ("frame_" +:+ fmt_02d i +:+ ".png") in
  save frame frame_path.

Definition split_effect_spritesheet (effect_name : string) (expected_frames : Z) : M unit :=
  let spritesheet_path :=
    os_path_join OUTPUT_BASE ("sprites/effects/" +:+ effect_name +:+ ".png") in
  let output_dir := os_path_join (os_path_join OUTPUT_BASE "sprites/effects") effect_name in
  found ← os_path_exists spritesheet_path;
  if negb found then
    print ("Effect spritesheet not found: " +:+ spritesheet_path)
  else
    os_makedirs output_dir;;
    try_except
      (sheet ← Image_open spritesheet_path;
       m ← get_mode sheet;
       sheet ← (if bool_decide (m ≠ RGBA) then convert_RGBA sheet else mret sheet);
       '(sheet_width, sheet_height) ← get_size sheet;
       frame_width ←
         (if expected_frames =? 0 then
            raise (ZeroDivisionError "integer division or modulo by zero")
          else mret (sheet_width `div` expected_frames));
       for_each (range expected_frames)
         (effect_frame sheet output_dir frame_width sheet_height);;
       print ("  [OK] Split " +:+ effect_name +:+ " into " +:+ pretty expected_frames +:+
              " frames"))
      (λ e, print ("  [ERROR] Error splitting " +:+ effect_name +:+ ": " +:+ exn_str e)).

(** A clip of the manifest: [{"frames": ..., "frameRate": ..., "repeat": ...}]. *)
Definition clip (frames : json) (frameRate repeat : Z) : json :=
  JDict [("frames", frames); ("frameRate", JInt frameRate); ("repeat", JInt repeat)].

(** The clips of one fighter; the four fighters have the same ones. *)
Definition fighter_clips : json :=
  JDict [
    ("idle", clip (JList [JInt 0]) 8 (-1));
    ("walk", clip (JList [JInt 1]) 10 (-1));
    ("jump", clip (JList [JInt 2]) 8 0);
    ("attack1", clip (JList [JInt 3]) 12 0);
    ("attack2", clip (JList [JInt 4]) 10 0);
    ("special", clip (JList [JInt 5]) 8 0);
    ("hit", clip (JList [JInt 6]) 8 0);
    ("ko", clip (JList [JInt 7]) 6 0)
  ].

Definition create_animation_json : M unit :=
  let animations := JDict [
    ("fighters", JDict [
       ("alphabot", fighter_clips);
       ("neuralknight", fighter_clips);
       ("quantumfist", fighter_clips);
       ("ironlogic", fighter_clips)]);
    ("effects", JDict [
       ("hit-spark", clip (JInt 4) 15 0);
       ("heavy-hit", clip (JInt 4) 12 0);
       ("block", clip (JInt 3) 12 0);
       ("dust", clip (JInt 4) 15 0);
       ("ko-explosion", clip (JInt 4) 10 0);
       ("energy-charge", clip (JInt 4) 12 (-1))])
  ] in
  let config_path := os_path_join OUTPUT_BASE "animations.json" in
  json_dump_to config_path animations;;
  print (nl +:+ "[OK] Created animation config: " +:+ config_path).

Definition banner : string := "============================================================".

(** Steps 3 to 5 of [main] and its summary: what follows a successful
    [extract_assets]. *)
Definition main_after_extraction : M unit :=
  print (nl +:+ "Step 3: Splitting fighter spritesheets into individual frames...");;
  for_each ["alphabot"; "neuralknight"; "quantumfist"; "ironlogic"]
    (λ fighter, split_fighter_spritesheet fighter 37 57);;
  print (nl +:+ "Step 4: Splitting effect spritesheets...");;
  let effects := [
    ("hit-spark", 4); ("heavy-hit", 4); ("block", 3);
    ("dust", 4); ("ko-explosion", 4); ("energy-charge", 4)
  ] in
  for_each effects (λ '(effect_name, num_frames),
    split_effect_spritesheet effect_name num_frames);;
  print (nl +:+ "Step 5: Creating animation configuration...");;
  create_animation_json;;
  print (nl +:+ banner);;
  print "Asset extraction complete!";;
  print ("Output location: " +:+ OUTPUT_BASE);;
  print banner;;
  print (nl +:+ "Asset Summary:");;
  print "  - 4 fighter spritesheets (split into 8 frames each)";;
  print "  - 9 background layers (3 arenas x 3 layers)";;
  print "  - 6 UI elements";;
  print "  - 6 effect spritesheets";;
  print "  - 4 character portraits";;
  print "  - 1 animation config JSON".

(** [main()], for the table [assets]. *)
Definition main_from (assets : list (string * asset_info)) : M unit :=
  print banner;;
  print "Clawdbot Arena Asset Extractor";;
  print banner;;
  found ← os_path_exists SOURCE_IMAGE;
  if negb found then
    print ("Error: Source image not found at " +:+ SOURCE_IMAGE)
  else
    print (nl +:+ "Step 1: Creating directory structure...");;
    create_directories;;
    print (nl +:+ "Step 2: Extracting assets from sprite sheet...");;
    extracted ← extract_assets_from assets SOURCE_IMAGE;
    if negb extracted then
      print (nl +:+ "Asset extraction failed!")
    else
      main_after_extraction.

Definition main : M unit := main_from ASSETS.

(** ** The effect of the loops of the filter on a raster *)

(** One turn of the inner loop at [(x, y)]. *)
Definition key_step (im : image) (x y : Z) : image :=
  Image (im_mode im) (im_size im)
    (alter (alter key_pixel (Z.to_nat x)) (Z.to_nat y) (im_rows im)).

(** One turn of the outer loop at row [y]. *)
Definition key_row (im : image) (y : Z) : image :=
  Image (im_mode im) (im_size im)
    (alter (fmap (M:=list) key_pixel) (Z.to_nat y) (im_rows im)).

(** ** The turns of a loop *)

(** The turns that [for_fold xs s body] takes from the world [w]: the
    item, the local variable and the world at the start of each turn.  A
    turn that raises is the last one. *)
Fixpoint turns {A S} (xs : list A) (s : S) (body : A → S → M S) (w : world)
    : list (A * S * world) :=
  match xs with
  | [] => []
  | x :: xs' =>
      (x, s, w) ::
      match body x s w with
      | (Ok s', w') => turns xs' s' body w'
      | (Raise _, _) => []
      end
  end.

(** The outcome of the [try] block of [extract_assets] in a turn. *)
Definition attempt (source : nat) (t : (string * asset_info) * Z * world) : result unit :=
  let '((output_path, asset_info), _, w) := t in
  (extract_one source output_path asset_info w).1.

Definition completed (source : nat) (t : (string * asset_info) * Z * world) : bool :=
  match attempt source t with Ok _ => true | Raise _ => false end.

(** The line that a turn of [extract_assets] prints. *)
Definition turn_message (source : nat) (t : (string * asset_info) * Z * world) : string :=
  let '((output_path, asset_info), _, _) := t in
  let '(_, _, w, h) := region asset_info in
  match attempt source t with
  | Ok _ => ok_message output_path w h
  | Raise e => error_message output_path e
  end.

(** ** Frame conditions *)

(** [silent m]: [m] reads and writes the heap only. *)
Definition silent {A} (m : M A) : Prop :=
  ∀ w r w', m w = (r, w') →
    disk w' = disk w ∧ console w' = console w ∧ fault w' = fault w.

(** [keeps l0 m φ]: [m] leaves the live object [l0] as it is, and its
    result satisfies [φ]. *)
Definition keeps (l0 : nat) {A} (m : M A) (φ : A → Prop) : Prop :=
  ∀ w r w' im0, m w = (r, w') → heap w !! l0 = Some im0 →
    heap w' !! l0 = Some im0 ∧ ∀ a, r = Ok a → φ a.

(** [mute m]: [m] prints nothing. *)
Definition mute {A} (m : M A) : Prop :=
  ∀ w r w', m w = (r, w') → console w' = console w.

(** [logs m line]: [m] prints [line] when it returns, and nothing when it
    raises. *)
Definition logs {A} (m : M A) (line : string) : Prop :=
  ∀ w r w', m w = (r, w') →
    console w' = console w ++ (match r with Ok _ => [line] | Raise _ => [] end).

(** [preserves I m]: [m] maintains the condition [I] on the world. *)
Definition preserves (I : world → Prop) {A} (m : M A) : Prop :=
  ∀ w r w', m w = (r, w') → I w → I w'.

(** ** The worlds that the slicers reach *)

(** The object and the world after [Image.open] of an image file and the
    conversion to RGBA of an image of another mode. *)
Definition opened (im : image) (w : world) : nat * world :=
  let l := fresh (dom (heap w)) in
  let w1 := set_heap <[l := im]> w in
  if bool_decide (im_mode im ≠ RGBA) then
    let l' := fresh (dom (heap w1)) in (l', set_heap <[l' := to_RGBA im]> w1)
  else (l, w1).




(** ** Sample images and worlds *)

(** A world with the objects [objs], the files [files], an empty console
    and an environment that refuses nothing. *)
Definition quiet_world (objs : list (nat * image)) (files : list (string * file)) : world :=
  World (list_to_map objs) (list_to_map files) [] (λ _ _, None).

(** A gray pixel of the checkerboard next to a red one. *)
Definition two_pixels : image :=
  Image RGBA (2, 1) [[(200, 200, 200, 255); (200, 0, 0, 255)]].

(** An environment that makes directories but refuses to save any image,
    and a world with it, whose source image is [two_pixels]. *)
Definition no_space (sc : syscall) (d : gmap string file) : option exn :=
  match sc with
  | SaveImage _ _ => Some (OSError "No space left on device")
  | _ => None
  end.

Definition full_disk_world : world :=
  World ∅ {[ SOURCE_IMAGE := ImageFile two_pixels ]} [] no_space.

Definition half_composite : image := solid RGBA 512 280 (10, 20, 30, 255).


Definition alphabot_sheet_path : string :=
  os_path_join OUTPUT_BASE "sprites/fighters/alphabot/spritesheet.png".



(** An RGB raster (as a JPEG holds it) with a gray and a red pixel. *)
Definition two_pixels_rgb : image :=
  Image RGB (2, 1) [[(200, 200, 200, 255); (200, 0, 0, 255)]].



(** A world in which the source path holds a file that is no image. *)
Definition broken_source_world : world :=
  World ∅ {[ SOURCE_IMAGE := JsonFile (JInt 0) ]} [] (λ _ _, None).


(** * Properties *)

(** ** Running the monad *)

Lemma bind_ok {A B} (m : M A) (k : A → M B) w a w' :
  m w = (Ok a, w') → (m ≫= k) w = k a w'.
Proof. intros H. unfold mbind, M_bind. by rewrite H. Qed.

Lemma bind_raise {A B} (m : M A) (k : A → M B) w e w' :
  m w = (Raise e, w') → (m ≫= k) w = (Raise e, w').
Proof. intros H. unfold mbind, M_bind. by rewrite H. Qed.

Lemma set_heap_insert_id l im w :
  heap w !! l = Some im → set_heap <[l := im]> w = w.
Proof. intros H. destruct w; unfold set_heap; simpl in *. by rewrite insert_id. Qed.

Lemma set_heap_insert_insert l a b w :
  set_heap <[l := b]> (set_heap <[l := a]> w) = set_heap <[l := b]> w.
Proof. unfold set_heap; simpl. by rewrite insert_insert_eq. Qed.

Lemma deref_ok l im w : heap w !! l = Some im → deref l w = (Ok im, w).
Proof. intros H. unfold deref. by rewrite H. Qed.

(** ** Rasters *)

Lemma well_formed_pixel_at im x y :
  well_formed im → 0 ≤ x < width im → 0 ≤ y < height im →
  is_Some (pixel_at im x y).
Proof.
  intros (Hw & Hh & Hlen & Hrows) Hx Hy. unfold pixel_at.
  rewrite bool_decide_eq_true_2 by done.
  destruct (lookup_lt_is_Some_2 (im_rows im) (Z.to_nat y)) as [row Hrow]; [lia|].
  rewrite Hrow; simpl. apply lookup_lt_is_Some_2.
  rewrite Forall_lookup in Hrows. rewrite (Hrows _ _ Hrow). lia.
Qed.

Lemma pixel_at_Some im x y p :
  pixel_at im x y = Some p ↔
  (0 ≤ x < width im ∧ 0 ≤ y < height im) ∧
  ∃ row, im_rows im !! Z.to_nat y = Some row ∧ row !! Z.to_nat x = Some p.
Proof.
  unfold pixel_at. case_bool_decide as Hin.
  - split.
    + intros H. split; [done|].
      destruct (im_rows im !! Z.to_nat y) as [row|] eqn:Hrow; [|done]. eauto.
    + intros (_ & row & -> & Hp). done.
  - split; [done|]. intros [? _]. done.
Qed.


Lemma pixel_at_solid m w h p x y :
  0 ≤ x < w → 0 ≤ y < h → pixel_at (solid m w h p) x y = Some p.
Proof.
  intros Hx Hy. apply pixel_at_Some. split; [done|].
  exists (replicate (Z.to_nat w) p). simpl.
  split; apply lookup_replicate_2; lia.
Qed.

(** ** Loops that update one object of the heap *)

Section for_each_update.
Context {A : Type} (l : nat) (step : image → A → image) (Inv : image → Prop).
Context (body : A → M unit) (xs : list A).
Hypothesis body_step : ∀ x im w,
  x ∈ xs → Inv im → heap w !! l = Some im →
  body x w = (Ok (), set_heap <[l := step im x]> w) ∧ Inv (step im x).

Lemma for_each_update im w :
  Inv im → heap w !! l = Some im →
  for_each xs body w = (Ok (), set_heap <[l := foldl step im xs]> w) ∧
  Inv (foldl step im xs).
Proof using body_step.
  revert body_step im w. induction xs as [|x xs' IH]; intros Hbody im w HI Hl.
  - simpl. split; [|done]. by rewrite set_heap_insert_id.
  - destruct (Hbody x im w) as [Hx HI']; [left|done|done|].
    simpl. erewrite bind_ok by exact Hx.
    destruct (IH (λ x' im' w' Hin, Hbody x' im' w' (list_elem_of_further _ _ _ Hin))
                 (step im x) (set_heap <[l := step im x]> w)) as [Hrest HI''].
    + done.
    + simpl. by rewrite lookup_insert_eq.
    + rewrite Hrest. by rewrite set_heap_insert_insert.
Qed.
End for_each_update.

(** ** The keying filter *)

Lemma key_pixel_idem p : key_pixel (key_pixel p) = key_pixel p.
Proof.
  destruct p as [[[r g] b] a]. unfold key_pixel.
  destruct (near_gray r g b) eqn:Hg; [|by rewrite Hg].
  destruct (in_gray_range r) eqn:Hr; by rewrite Hg, Hr.
Qed.

Lemma foldl_alter_seq {A} (f : A → A) (l : list A) n :
  foldl (λ l i, alter f i l) l (seq 0 n) = (f <$> take n l) ++ drop n l.
Proof.
  induction n as [|n IH].
  - simpl. by rewrite drop_0.
  - rewrite seq_S, foldl_app, IH. simpl.
    destruct (l !! n) as [x|] eqn:Hx.
    + rewrite (take_S_r _ _ _ Hx), fmap_app. simpl.
      rewrite (drop_S _ _ _ Hx).
      pose proof (lookup_lt_Some _ _ _ Hx) as Hn.
      rewrite alter_app_r_alt by (rewrite length_fmap, length_take; lia).
      rewrite length_fmap, length_take.
      replace (n - n `min` length l)%nat with 0%nat by lia. simpl.
      by rewrite <- app_assoc.
    + apply lookup_ge_None_1 in Hx.
      rewrite !take_ge, !drop_ge, app_nil_r by lia.
      apply list_eq. intros i. destruct (decide (n = i)) as [<-|Hne].
      * rewrite list_lookup_alter_eq, lookup_ge_None_2; [done|].
        by rewrite length_fmap.
      * by rewrite list_lookup_alter_ne.
Qed.

Lemma foldl_alter_all {A} (f : A → A) (l : list A) :
  foldl (λ l i, alter f i l) l (seq 0 (length l)) = f <$> l.
Proof. by rewrite foldl_alter_seq, take_ge, drop_all, app_nil_r. Qed.

Lemma well_formed_key_step im x y : well_formed im → well_formed (key_step im x y).
Proof.
  intros (Hw & Hh & Hlen & Hrows). unfold well_formed, key_step, width, height; simpl.
  repeat split; [done|done| |].
  - by rewrite length_alter.
  - apply Forall_alter; [done|]. intros row _ Hrow. by rewrite length_alter.
Qed.

Lemma well_formed_key_row im y : well_formed im → well_formed (key_row im y).
Proof.
  intros (Hw & Hh & Hlen & Hrows). unfold well_formed, key_row, width, height; simpl.
  repeat split; [done|done| |].
  - by rewrite length_alter.
  - apply Forall_alter; [done|]. intros row _ Hrow. by rewrite length_fmap.
Qed.

Lemma well_formed_key_image im : well_formed im → well_formed (key_image im).
Proof.
  intros (Hw & Hh & Hlen & Hrows). unfold well_formed, key_image, width, height; simpl.
  repeat split; [done|done| |].
  - by rewrite length_fmap.
  - apply Forall_fmap. eapply Forall_impl; [exact Hrows|].
    intros row Hrow. simpl. by rewrite length_fmap.
Qed.

(** The inner loop keys one row. *)
Lemma key_step_row im y w :
  well_formed im → width im = w →
  foldl (λ im x, key_step im x y) im (range w) = key_row im y.
Proof.
  intros (_ & _ & _ & Hrows) <-. unfold range, seqZ. rewrite foldl_fmap.
  assert (∀ (ks : list nat) im',
    foldl (λ im'' (i : nat), key_step im'' (Z.of_nat i + 0) y) im' ks =
    Image (im_mode im') (im_size im')
      (alter (λ row, foldl (λ r i, alter key_pixel i r) row ks)
             (Z.to_nat y) (im_rows im'))) as Hfold.
  { induction ks as [|i ks IH]; intros im'.
    - simpl. rewrite list_alter_id by done. by destruct im'.
    - simpl. rewrite IH. unfold key_step; simpl.
      replace (Z.to_nat (Z.of_nat i + 0)) with i by lia.
      by rewrite list_alter_alter_eq. }
  rewrite Hfold. unfold key_row. f_equal.
  apply list_alter_ext; [|done]. intros row Hrow.
  rewrite Forall_lookup in Hrows. rewrite <- (Hrows _ _ Hrow).
  apply foldl_alter_all.
Qed.

(** The outer loop keys every row. *)
Lemma key_row_image im h :
  well_formed im → height im = h →
  foldl key_row im (range h) = key_image im.
Proof.
  intros (_ & _ & Hlen & _) <-. unfold range, seqZ. rewrite foldl_fmap.
  assert (∀ (js : list nat) im',
    foldl (λ im'' (j : nat), key_row im'' (Z.of_nat j + 0)) im' js =
    Image (im_mode im') (im_size im')
      (foldl (λ rows j, alter (fmap key_pixel) j rows) (im_rows im') js)) as Hfold.
  { induction js as [|j js IH]; intros im'.
    - simpl. by destruct im'.
    - simpl. rewrite IH. unfold key_row; simpl.
      by replace (Z.to_nat (Z.of_nat j + 0)) with j by lia. }
  rewrite Hfold, <- Hlen. unfold key_image. f_equal. apply foldl_alter_all.
Qed.

Lemma set_pixel_at_id im x y p :
  pixel_at im x y = Some p → set_pixel_at im x y p = im.
Proof.
  intros Hp. apply pixel_at_Some in Hp as (_ & row & Hrow & Hpx).
  destruct im as [m sz rows]. unfold set_pixel_at; simpl in *. f_equal.
  apply list_eq. intros j. destruct (decide (Z.to_nat y = j)) as [<-|Hne].
  - rewrite list_lookup_alter_eq, Hrow. simpl. by rewrite list_insert_id.
  - by rewrite list_lookup_alter_ne.
Qed.

Lemma set_pixel_at_key im x y p :
  pixel_at im x y = Some p → set_pixel_at im x y (key_pixel p) = key_step im x y.
Proof.
  intros Hp. apply pixel_at_Some in Hp as (_ & row & Hrow & Hpx).
  unfold set_pixel_at, key_step. f_equal.
  apply list_alter_ext; [|done]. intros row' Hrow'.
  rewrite Hrow in Hrow'. injection Hrow' as <-.
  rewrite list_insert_alter. apply list_alter_ext; [|done].
  intros p' Hp'. congruence.
Qed.

Lemma key_at_spec l im x y w :
  heap w !! l = Some im → well_formed im →
  0 ≤ x < width im → 0 ≤ y < height im →
  key_at l x y w = (Ok (), set_heap <[l := key_step im x y]> w).
Proof.
  intros Hl Hwf Hx Hy.
  destruct (well_formed_pixel_at im x y) as [p Hp]; [done..|].
  pose proof (set_pixel_at_key _ _ _ _ Hp) as Hkey.
  pose proof (set_pixel_at_id _ _ _ _ Hp) as Hid.
  assert (norm_index x (width im) = x) as Hnx.
  { unfold norm_index. by rewrite (proj2 (Z.ltb_ge _ _)) by lia. }
  assert (norm_index y (height im) = y) as Hny.
  { unfold norm_index. by rewrite (proj2 (Z.ltb_ge _ _)) by lia. }
  unfold key_at. erewrite bind_ok; last first.
  { unfold getpixel. erewrite bind_ok by (by apply deref_ok).
    rewrite Hnx, Hny, Hp. reflexivity. }
  destruct p as [[[r g] b] a]. cbn beta iota.
  change ((Z.abs (r - g) <? 10) && (Z.abs (g - b) <? 10) && (Z.abs (r - b) <? 10))
    with (near_gray r g b).
  change ((180 <=? r) && (r <=? 220)) with (in_gray_range r).
  unfold key_pixel in Hkey.
  destruct (near_gray r g b); [destruct (in_gray_range r)|].
  - unfold putpixel. erewrite bind_ok by (by apply deref_ok).
    cbn zeta. rewrite Hnx, Hny, bool_decide_eq_true_2 by done.
    unfold store. by rewrite Hkey.
  - rewrite <- Hkey, Hid. by rewrite set_heap_insert_id.
  - rewrite <- Hkey, Hid. by rewrite set_heap_insert_id.
Qed.

Lemma key_inner_loop l im y w :
  heap w !! l = Some im → well_formed im → 0 ≤ y < height im →
  for_each (range (width im)) (λ x, key_at l x y) w =
  (Ok (), set_heap <[l := key_row im y]> w).
Proof.
  intros Hl Hwf Hy.
  destruct (for_each_update l (λ im' x, key_step im' x y)
              (λ im', well_formed im' ∧ im_size im' = im_size im)
              (λ x, key_at l x y) (range (width im))) with (im := im) (w := w)
    as [Hrun _]; [|done|done|].
  - intros x im' w' Hin [Hwf' Hsz] Hl'. unfold range in Hin.
    apply elem_of_seqZ in Hin. split; [|split; [by apply well_formed_key_step|done]].
    apply key_at_spec; [done|done| |]; unfold width, height in *; rewrite Hsz; lia.
  - rewrite Hrun. by rewrite key_step_row.
Qed.

Lemma key_outer_loop l im w :
  heap w !! l = Some im → well_formed im →
  for_each (range (height im))
    (λ y, for_each (range (width im)) (λ x, key_at l x y)) w =
  (Ok (), set_heap <[l := key_image im]> w).
Proof.
  intros Hl Hwf.
  destruct (for_each_update l key_row
              (λ im', well_formed im' ∧ im_size im' = im_size im)
              (λ y, for_each (range (width im)) (λ x, key_at l x y))
              (range (height im))) with (im := im) (w := w)
    as [Hrun _]; [|done|done|].
  - intros y im' w' Hin [Hwf' Hsz] Hl'. unfold range in Hin.
    apply elem_of_seqZ in Hin.
    split; [|split; [by apply well_formed_key_row|done]].
    replace (width im) with (width im') by (unfold width; by rewrite Hsz).
    apply key_inner_loop; [done|done|]. unfold height in *. rewrite Hsz. lia.
  - rewrite Hrun. by rewrite key_row_image.
Qed.

(** On an RGBA image the filter keys the object in place and returns it. *)
Lemma remove_checkered_background_RGBA l im w :
  heap w !! l = Some im → im_mode im = RGBA → well_formed im →
  remove_checkered_background l w = (Ok l, set_heap <[l := key_image im]> w).
Proof.
  intros Hl Hmode Hwf. unfold remove_checkered_background.
  erewrite bind_ok; last first.
  { unfold get_mode. erewrite bind_ok by (by apply deref_ok). reflexivity. }
  rewrite Hmode, bool_decide_eq_false_2 by (intros H; by apply H).
  erewrite bind_ok by reflexivity.
  erewrite bind_ok; last first.
  { unfold get_size. erewrite bind_ok by (by apply deref_ok). reflexivity. }
  destruct (im_size im) as [wd ht] eqn:Hsz. cbn beta iota zeta.
  erewrite bind_ok; last first.
  { replace wd with (width im) by (unfold width; by rewrite Hsz).
    replace ht with (height im) by (unfold height; by rewrite Hsz).
    by apply key_outer_loop. }
  reflexivity.
Qed.

Lemma pixel_at_key_image im x y :
  pixel_at (key_image im) x y = key_pixel <$> pixel_at im x y.
Proof.
  unfold pixel_at, key_image, width, height; simpl.
  case_bool_decide; [|done].
  rewrite list_lookup_fmap. destruct (im_rows im !! Z.to_nat y) as [row|]; [|done].
  simpl. by rewrite list_lookup_fmap.
Qed.

Lemma key_image_idem im : key_image (key_image im) = key_image im.
Proof.
  unfold key_image; simpl. f_equal.
  rewrite <- list_fmap_compose. apply list_fmap_ext. intros _ row _. simpl.
  rewrite <- list_fmap_compose. apply list_fmap_ext. intros _ p _. simpl.
  apply key_pixel_idem.
Qed.

Lemma key_pixel_cases r g b a :
  (Z.abs (r - g) < 10 ∧ Z.abs (g - b) < 10 ∧ Z.abs (r - b) < 10 ∧ 180 ≤ r ≤ 220 →
   key_pixel (r, g, b, a) = (r, g, b, 0)) ∧
  (¬ (Z.abs (r - g) < 10 ∧ Z.abs (g - b) < 10 ∧ Z.abs (r - b) < 10 ∧ 180 ≤ r ≤ 220) →
   key_pixel (r, g, b, a) = (r, g, b, a)).
Proof.
  unfold key_pixel, near_gray, in_gray_range.
  destruct (Z.ltb_spec (Z.abs (r - g)) 10), (Z.ltb_spec (Z.abs (g - b)) 10),
    (Z.ltb_spec (Z.abs (r - b)) 10), (Z.leb_spec 180 r), (Z.leb_spec r 220);
    simpl; split; intros; try done; lia.
Qed.

(** ** The claims on the keying filter *)

(** C2: on an RGBA image the filter makes a pixel [(r, g, b, a)]
    transparent, [(r, g, b, 0)], exactly when the three differences of its
    channels are below 10 and [r] lies between 180 and 220 inclusive; any
    other pixel keeps its four channels. *)
Theorem keying_rule l im w :
  heap w !! l = Some im → im_mode im = RGBA → well_formed im →
  ∃ im', remove_checkered_background l w = (Ok l, set_heap <[l := im']> w) ∧
    ∀ x y r g b a, pixel_at im x y = Some (r, g, b, a) →
      (Z.abs (r - g) < 10 ∧ Z.abs (g - b) < 10 ∧ Z.abs (r - b) < 10 ∧
       180 ≤ r ≤ 220 →
       pixel_at im' x y = Some (r, g, b, 0)) ∧
      (¬ (Z.abs (r - g) < 10 ∧ Z.abs (g - b) < 10 ∧ Z.abs (r - b) < 10 ∧
          180 ≤ r ≤ 220) →
       pixel_at im' x y = Some (r, g, b, a)).
Proof.
  intros Hl Hmode Hwf. exists (key_image im).
  split; [by apply remove_checkered_background_RGBA|].
  intros x y r g b a Hp. rewrite pixel_at_key_image, Hp. simpl.
  destruct (key_pixel_cases r g b a) as [Hyes Hno].
  split; intros H; f_equal; auto.
Qed.

(** The pixels (200,200,200,255) and (200,0,0,255) of the specification. *)
Lemma keying_rule_witness :
  ∃ im', remove_checkered_background 0%nat (quiet_world [(0%nat, two_pixels)] []) =
           (Ok 0%nat, set_heap <[0%nat := im']> (quiet_world [(0%nat, two_pixels)] [])) ∧
         pixel_at im' 0 0 = Some (200, 200, 200, 0) ∧
         pixel_at im' 1 0 = Some (200, 0, 0, 255).
Proof.
  destruct (keying_rule 0%nat two_pixels (quiet_world [(0%nat, two_pixels)] []))
    as (im' & Hrun & Hpix).
  - reflexivity.
  - reflexivity.
  - unfold well_formed, two_pixels, width, height; simpl.
    repeat split; try lia. repeat constructor.
  - exists im'. split; [exact Hrun|]. split.
    + apply (Hpix 0 0 200 200 200 255); [reflexivity|]. simpl. lia.
    + apply (Hpix 1 0 200 0 0 255); [reflexivity|]. simpl. lia.
Defined.

(** C3: the filter is idempotent: run on the image it has keyed, it
    returns the same object and leaves the whole world as it is. *)
Theorem keying_idempotent l im w :
  heap w !! l = Some im → im_mode im = RGBA → well_formed im →
  ∃ w1, remove_checkered_background l w = (Ok l, w1) ∧
        remove_checkered_background l w1 = (Ok l, w1).
Proof.
  intros Hl Hmode Hwf. exists (set_heap <[l := key_image im]> w).
  split; [by apply remove_checkered_background_RGBA|].
  rewrite (remove_checkered_background_RGBA l (key_image im)).
  - by rewrite key_image_idem, set_heap_insert_insert.
  - simpl. by rewrite lookup_insert_eq.
  - done.
  - by apply well_formed_key_image.
Qed.

Lemma keying_idempotent_witness :
  ∃ w1, remove_checkered_background 0%nat (quiet_world [(0%nat, two_pixels)] []) =
          (Ok 0%nat, w1) ∧
        remove_checkered_background 0%nat w1 = (Ok 0%nat, w1).
Proof.
  apply (keying_idempotent 0%nat two_pixels).
  - reflexivity.
  - reflexivity.
  - unfold well_formed, two_pixels, width, height; simpl.
    repeat split; try lia. repeat constructor.
Defined.

(** C9: the filter writes the alpha channel only, and only to 0: the
    keyed image has the size of the input, every pixel keeps its red,
    green and blue, and its alpha is the input alpha or 0, so it does not
    grow. *)
Theorem keying_alpha_only l im w :
  heap w !! l = Some im → im_mode im = RGBA → well_formed im →
  ∃ im', remove_checkered_background l w = (Ok l, set_heap <[l := im']> w) ∧
    im_size im' = im_size im ∧
    ∀ x y r g b a, pixel_at im x y = Some (r, g, b, a) →
      ∃ a', pixel_at im' x y = Some (r, g, b, a') ∧
            (a' = a ∨ a' = 0) ∧ (0 ≤ a → a' ≤ a).
Proof.
  intros Hl Hmode Hwf. exists (key_image im).
  split; [by apply remove_checkered_background_RGBA|]. split; [done|].
  intros x y r g b a Hp. rewrite pixel_at_key_image, Hp. simpl.
  unfold key_pixel. destruct (near_gray r g b); [destruct (in_gray_range r)|].
  - exists 0. split; [done|]. split; [by right|done].
  - exists a. split; [done|]. split; [by left|lia].
  - exists a. split; [done|]. split; [by left|lia].
Qed.

Lemma keying_alpha_only_witness :
  ∃ im', remove_checkered_background 0%nat (quiet_world [(0%nat, two_pixels)] []) =
           (Ok 0%nat, set_heap <[0%nat := im']> (quiet_world [(0%nat, two_pixels)] [])) ∧
         im_size im' = (2, 1) ∧
         (∃ a', pixel_at im' 0 0 = Some (200, 200, 200, a') ∧ a' ≤ 255) ∧
         (∃ a', pixel_at im' 1 0 = Some (200, 0, 0, a') ∧ a' ≤ 255).
Proof.
  destruct (keying_alpha_only 0%nat two_pixels (quiet_world [(0%nat, two_pixels)] []))
    as (im' & Hrun & Hsz & Hpix).
  - reflexivity.
  - reflexivity.
  - unfold well_formed, two_pixels, width, height; simpl.
    repeat split; try lia. repeat constructor.
  - exists im'. split; [exact Hrun|]. split; [exact Hsz|]. split.
    + destruct (Hpix 0 0 200 200 200 255) as (a' & Ha & _ & Hle); [reflexivity|].
      exists a'. split; [exact Ha|]. apply Hle. lia.
    + destruct (Hpix 1 0 200 0 0 255) as (a' & Ha & _ & Hle); [reflexivity|].
      exists a'. split; [exact Ha|]. apply Hle. lia.
Defined.

(** ** Frame conditions of the library and of the filter *)

Lemma bind_inv {A B} (m : M A) (k : A → M B) w r w' :
  (m ≫= k) w = (r, w') →
  (∃ a w1, m w = (Ok a, w1) ∧ k a w1 = (r, w')) ∨
  (∃ e, m w = (Raise e, w') ∧ r = Raise e).
Proof.
  unfold mbind, M_bind. destruct (m w) as [[a|e] w1]; intros H.
  - left. eauto.
  - right. injection H as <- <-. eauto.
Qed.

Lemma silent_ret {A} (a : A) : silent (mret a).
Proof. intros w r w' [= <- <-]. done. Qed.

Lemma silent_raise {A} e : silent (raise (A := A) e).
Proof. intros w r w' [= <- <-]. done. Qed.

Lemma silent_bind {A B} (m : M A) (k : A → M B) :
  silent m → (∀ a, silent (k a)) → silent (m ≫= k).
Proof.
  intros Hm Hk w r w' H. apply bind_inv in H as [(a & w1 & H1 & H2)|(e & H1 & _)].
  - destruct (Hm _ _ _ H1) as (Hd & Hc & Hf).
    destruct (Hk _ _ _ _ H2) as (Hd' & Hc' & Hf').
    repeat split; congruence.
  - by eapply Hm.
Qed.

Lemma silent_for_each {A} (xs : list A) (body : A → M unit) :
  (∀ x, silent (body x)) → silent (for_each xs body).
Proof.
  intros Hbody. induction xs as [|x xs IH]; simpl.
  - apply silent_ret.
  - apply silent_bind; [apply Hbody|done].
Qed.

Lemma silent_deref l : silent (deref l).
Proof. intros w r w'. unfold deref. destruct (heap w !! l); intros [= <- <-]; done. Qed.

Lemma silent_alloc im : silent (alloc im).
Proof. intros w r w' [= <- <-]. done. Qed.

Lemma silent_store l im : silent (store l im).
Proof. intros w r w' [= <- <-]. done. Qed.

Lemma silent_get_mode l : silent (get_mode l).
Proof. apply silent_bind; [apply silent_deref|intros; apply silent_ret]. Qed.

Lemma silent_get_size l : silent (get_size l).
Proof. apply silent_bind; [apply silent_deref|intros; apply silent_ret]. Qed.

Lemma silent_convert_RGBA l : silent (convert_RGBA l).
Proof. apply silent_bind; [apply silent_deref|intros; apply silent_alloc]. Qed.

Lemma silent_getpixel l x y : silent (getpixel l x y).
Proof.
  apply silent_bind; [apply silent_deref|]. intros im.
  destruct (pixel_at _ _ _); [apply silent_ret|apply silent_raise].
Qed.

Lemma silent_putpixel l x y p : silent (putpixel l x y p).
Proof.
  apply silent_bind; [apply silent_deref|]. intros im. cbn zeta.
  case_bool_decide; [apply silent_store|apply silent_raise].
Qed.

Lemma silent_key_at l x y : silent (key_at l x y).
Proof.
  apply silent_bind; [apply silent_getpixel|]. intros [[[r g] b] a].
  repeat case_match; auto using silent_putpixel, silent_ret.
Qed.

Lemma silent_crop l box : silent (crop l box).
Proof.
  destruct box as [[[x0 y0] x1] y1]. unfold crop.
  repeat case_match; try apply silent_raise.
  apply silent_bind; [apply silent_deref|intros; apply silent_alloc].
Qed.

Lemma silent_remove_checkered_background l : silent (remove_checkered_background l).
Proof.
  apply silent_bind; [apply silent_get_mode|]. intros m.
  apply silent_bind; [case_bool_decide; [apply silent_convert_RGBA|apply silent_ret]|].
  intros l'. apply silent_bind; [apply silent_get_size|]. intros [wd ht].
  apply silent_bind; [|intros; apply silent_ret].
  apply silent_for_each. intros y. apply silent_for_each. intros x.
  apply silent_key_at.
Qed.

Lemma keeps_ret l0 {A} (a : A) (φ : A → Prop) : φ a → keeps l0 (mret a) φ.
Proof. intros Ha w r w' im0 [= <- <-] Hl. split; [done|]. by intros a' [= <-]. Qed.

Lemma keeps_raise l0 {A} e (φ : A → Prop) : keeps l0 (raise e) φ.
Proof. intros w r w' im0 [= <- <-] Hl. done. Qed.

Lemma keeps_weaken l0 {A} (m : M A) (φ ψ : A → Prop) :
  keeps l0 m φ → (∀ a, φ a → ψ a) → keeps l0 m ψ.
Proof.
  intros Hm Himp w r w' im0 H Hl. destruct (Hm _ _ _ _ H Hl) as [? Hφ].
  split; [done|]. intros a ->. apply Himp. by apply Hφ.
Qed.

Lemma keeps_bind l0 {A B} (m : M A) (k : A → M B) (φ : A → Prop) (ψ : B → Prop) :
  keeps l0 m φ → (∀ a, φ a → keeps l0 (k a) ψ) → keeps l0 (m ≫= k) ψ.
Proof.
  intros Hm Hk w r w' im0 H Hl.
  apply bind_inv in H as [(a & w1 & H1 & H2)|(e & H1 & ->)].
  - destruct (Hm _ _ _ _ H1 Hl) as [Hl1 Hφ]. eapply Hk; eauto.
  - destruct (Hm _ _ _ _ H1 Hl) as [Hl1 _]. done.
Qed.

Lemma keeps_try_except l0 {A} (body : M A) (handler : exn → M A) (φ : A → Prop) :
  keeps l0 body φ → (∀ e, keeps l0 (handler e) φ) →
  keeps l0 (try_except body handler) φ.
Proof.
  intros Hb Hh w r w' im0 H Hl. unfold try_except in H.
  destruct (body w) as [[a|e] w1] eqn:Hbody.
  - injection H as <- <-. by eapply Hb.
  - destruct (Hb _ _ _ _ Hbody Hl) as [Hl1 _]. by eapply Hh.
Qed.

Lemma keeps_for_each l0 {A} (xs : list A) (body : A → M unit) :
  (∀ x, keeps l0 (body x) (λ _, True)) → keeps l0 (for_each xs body) (λ _, True).
Proof.
  intros Hbody. induction xs as [|x xs IH]; simpl.
  - by apply keeps_ret.
  - eapply keeps_bind; [apply Hbody|done].
Qed.

Lemma keeps_for_fold l0 {A S} (xs : list A) (body : A → S → M S) s :
  (∀ x s', keeps l0 (body x s') (λ _, True)) →
  keeps l0 (for_fold xs s body) (λ _, True).
Proof.
  intros Hbody. revert s. induction xs as [|x xs IH]; intros s; simpl.
  - by apply keeps_ret.
  - eapply keeps_bind; [apply Hbody|]. intros s' _. apply IH.
Qed.

(** What leaves the heap alone keeps every object. *)
Lemma keeps_heap_unchanged l0 {A} (m : M A) :
  (∀ w r w', m w = (r, w') → heap w' = heap w) → keeps l0 m (λ _, True).
Proof. intros Hm w r w' im0 H Hl. by rewrite (Hm _ _ _ H). Qed.

Lemma keeps_print l0 s : keeps l0 (print s) (λ _, True).
Proof. apply keeps_heap_unchanged. by intros w r w' [= <- <-]. Qed.

Lemma keeps_deref l0 l : keeps l0 (deref l) (λ _, True).
Proof.
  apply keeps_heap_unchanged. intros w r w'. unfold deref.
  destruct (heap w !! l); by intros [= <- <-].
Qed.

Lemma keeps_write_image l0 path im : keeps l0 (write_image path im) (λ _, True).
Proof.
  apply keeps_heap_unchanged. intros w r w'. unfold write_image.
  destruct (fault w _ _); by intros [= <- <-].
Qed.

(** A new object is not one of the live ones. *)
Lemma keeps_alloc l0 im : keeps l0 (alloc im) (λ l, l ≠ l0).
Proof.
  intros w r w' im0 [= <- <-] Hl.
  assert (fresh (dom (heap w)) ≠ l0) as Hne.
  { intros <-. apply (is_fresh (dom (heap w))). apply elem_of_dom. eauto. }
  split; [|by intros a [= <-]]. simpl. by rewrite lookup_insert_ne.
Qed.

Lemma keeps_store l0 l im : l ≠ l0 → keeps l0 (store l im) (λ _, True).
Proof.
  intros Hne w r w' im0 [= <- <-] Hl. split; [|done].
  simpl. by rewrite lookup_insert_ne.
Qed.

Lemma keeps_get_mode l0 l : keeps l0 (get_mode l) (λ _, True).
Proof. eapply keeps_bind; [apply keeps_deref|]. intros. by apply keeps_ret. Qed.

Lemma keeps_get_size l0 l : keeps l0 (get_size l) (λ _, True).
Proof. eapply keeps_bind; [apply keeps_deref|]. intros. by apply keeps_ret. Qed.

Lemma keeps_convert_RGBA l0 l : keeps l0 (convert_RGBA l) (λ l', l' ≠ l0).
Proof. eapply keeps_bind; [apply keeps_deref|]. intros. apply keeps_alloc. Qed.

Lemma keeps_getpixel l0 l x y : keeps l0 (getpixel l x y) (λ _, True).
Proof.
  eapply keeps_bind; [apply keeps_deref|]. intros im _.
  destruct (pixel_at _ _ _); [by apply keeps_ret|apply keeps_raise].
Qed.

Lemma keeps_putpixel l0 l x y p : l ≠ l0 → keeps l0 (putpixel l x y p) (λ _, True).
Proof.
  intros Hne. eapply keeps_bind; [apply keeps_deref|]. intros im _. cbn zeta.
  case_bool_decide; [by apply keeps_store|apply keeps_raise].
Qed.

Lemma keeps_key_at l0 l x y : l ≠ l0 → keeps l0 (key_at l x y) (λ _, True).
Proof.
  intros Hne. eapply keeps_bind; [apply keeps_getpixel|]. intros [[[r g] b] a] _.
  repeat case_match; auto using keeps_putpixel, keeps_ret.
Qed.

(** [crop] allocates: the cropped image is a new object. *)
Lemma keeps_crop l0 l box : keeps l0 (crop l box) (λ l', l' ≠ l0).
Proof.
  destruct box as [[[x0 y0] x1] y1]. unfold crop.
  repeat case_match; try apply keeps_raise.
  eapply keeps_bind; [apply keeps_deref|]. intros. apply keeps_alloc.
Qed.

(** The filter writes to its argument, or to the converted copy of it,
    and to nothing else. *)
Lemma keeps_remove_checkered_background l0 l :
  l ≠ l0 → keeps l0 (remove_checkered_background l) (λ l', l' ≠ l0).
Proof.
  intros Hne. eapply keeps_bind; [apply keeps_get_mode|]. intros m _.
  eapply keeps_bind with (φ := λ l', l' ≠ l0).
  { case_bool_decide; [apply keeps_convert_RGBA|by apply keeps_ret]. }
  intros l' Hne'. eapply keeps_bind; [apply keeps_get_size|]. intros [wd ht] _.
  eapply keeps_bind; [|intros; by apply keeps_ret].
  apply keeps_for_each. intros y. apply keeps_for_each. intros x.
  by apply keeps_key_at.
Qed.

Lemma keeps_save l0 l path : keeps l0 (save l path) (λ _, True).
Proof. eapply keeps_bind; [apply keeps_deref|]. intros. apply keeps_write_image. Qed.

(** Extracting one descriptor keeps every object that was live before,
    the source among them. *)
Lemma keeps_extract_one l0 source output_path info :
  keeps l0 (extract_one source output_path info) (λ _, True).
Proof.
  unfold extract_one. destruct (region info) as [[[x y] w] h].
  eapply keeps_bind; [apply keeps_get_size|]. intros size _.
  eapply keeps_bind; [apply keeps_crop|]. intros cropped Hne.
  eapply keeps_bind; [by apply keeps_remove_checkered_background|].
  intros cropped' Hne'.
  eapply keeps_bind; [apply keeps_save|]. intros _ _. apply keeps_print.
Qed.

Lemma keeps_extract_item l0 source item n :
  keeps l0 (extract_item source item n) (λ _, True).
Proof.
  destruct item as [output_path info]. apply keeps_try_except.
  - eapply keeps_bind; [apply keeps_extract_one|]. intros. by apply keeps_ret.
  - intros e. eapply keeps_bind; [apply keeps_print|]. intros. by apply keeps_ret.
Qed.

Lemma keeps_extract_loop l0 assets source :
  keeps l0 (extract_loop assets source) (λ _, True).
Proof.
  eapply keeps_bind.
  - apply keeps_for_fold. intros. apply keeps_extract_item.
  - intros. apply keeps_print.
Qed.

(** ** The source image is only read *)

(** C8: the extraction loop never mutates the source image: whatever the
    table of descriptors, the object [source] holds after the loop the
    raster it held before (each crop is a new object, and the filter
    writes to that object only). *)
Theorem source_never_mutated assets source w im0 :
  heap w !! source = Some im0 →
  heap (extract_loop assets source w).2 !! source = Some im0.
Proof.
  intros Hl. destruct (extract_loop assets source w) as [r w'] eqn:Hrun. simpl.
  by destruct (keeps_extract_loop source assets source _ _ _ _ Hrun Hl).
Qed.

(** ** The extraction loop *)

Lemma silent_mute {A} (m : M A) : silent m → mute m.
Proof. intros Hm w r w' H. by destruct (Hm _ _ _ H) as (_ & ? & _). Qed.

Lemma mute_write_image path im : mute (write_image path im).
Proof.
  intros w r w'. unfold write_image. destruct (fault w _ _); by intros [= <- <-].
Qed.

Lemma mute_bind {A B} (m : M A) (k : A → M B) :
  mute m → (∀ a, mute (k a)) → mute (m ≫= k).
Proof.
  intros Hm Hk w r w' H. apply bind_inv in H as [(a & w1 & H1 & H2)|(e & H1 & _)].
  - rewrite (Hk _ _ _ _ H2). by eapply Hm.
  - by eapply Hm.
Qed.

Lemma mute_save l path : mute (save l path).
Proof.
  apply mute_bind; [apply silent_mute, silent_deref|]. intros. apply mute_write_image.
Qed.

Lemma logs_print s : logs (print s) s.
Proof. by intros w r w' [= <- <-]. Qed.

Lemma logs_bind {A B} (m : M A) (k : A → M B) line :
  mute m → (∀ a, logs (k a) line) → logs (m ≫= k) line.
Proof.
  intros Hm Hk w r w' H. apply bind_inv in H as [(a & w1 & H1 & H2)|(e & H1 & ->)].
  - rewrite (Hk _ _ _ _ H2). by rewrite (Hm _ _ _ H1).
  - rewrite (Hm _ _ _ H1). by rewrite app_nil_r.
Qed.

(** The [try] block prints its line when, and only when, it completes. *)
Lemma logs_extract_one source output_path info x y w h :
  region info = (x, y, w, h) →
  logs (extract_one source output_path info) (ok_message output_path w h).
Proof.
  intros Hreg. unfold extract_one. rewrite Hreg. cbv beta iota.
  apply logs_bind; [apply silent_mute, silent_get_size|]. intros size.
  apply logs_bind; [apply silent_mute, silent_crop|]. intros cropped.
  apply logs_bind; [apply silent_mute, silent_remove_checkered_background|].
  intros cropped'.
  apply logs_bind; [apply mute_save|]. intros _. apply logs_print.
Qed.

(** A turn of the loop never raises: it counts a completed [try] block,
    and prints one line either way. *)
Lemma extract_item_turn source item n w :
  ∃ w', extract_item source item n w =
          (Ok (n + (if completed source (item, n, w) then 1 else 0)), w') ∧
        console w' = console w ++ [turn_message source (item, n, w)].
Proof.
  destruct item as [output_path info].
  destruct (region info) as [[[x y] wd] ht] eqn:Hreg.
  pose proof (logs_extract_one source output_path info x y wd ht Hreg w) as Hlog.
  unfold completed, turn_message, attempt, extract_item, try_except.
  rewrite Hreg. unfold mbind at 1, M_bind.
  destruct (extract_one source output_path info w) as [[[]|e] w1]; simpl.
  - eexists. split; [reflexivity|]. by apply (Hlog _ _ eq_refl).
  - eexists. split; [by rewrite Z.add_0_r|]. simpl.
    rewrite (Hlog _ _ eq_refl). by rewrite app_nil_r.
Qed.

Lemma turns_cons_ok {A S} (x : A) xs (s s1 : S) body w w1 :
  body x s w = (Ok s1, w1) →
  turns (x :: xs) s body w = (x, s, w) :: turns xs s1 body w1.
Proof. intros H. simpl. by rewrite H. Qed.

Lemma extract_turns source assets n w :
  let ts := turns assets n (extract_item source) w in
  ts.*1.*1 = assets ∧
  ∃ w', for_fold assets n (extract_item source) w =
          (Ok (n + Z.of_nat (length (List.filter (completed source) ts))), w') ∧
        console w' = console w ++ (turn_message source <$> ts).
Proof.
  cbv zeta. revert n w. induction assets as [|item assets IH]; intros n w.
  - simpl. split; [done|]. eexists. split; [by rewrite Z.add_0_r|].
    by rewrite app_nil_r.
  - destruct (extract_item_turn source item n w) as (w1 & Hturn & Hcons).
    destruct (IH (n + (if completed source (item, n, w) then 1 else 0)) w1)
      as (Hitems & w2 & Hrest & Hcons2).
    rewrite (turns_cons_ok _ _ _ _ _ _ _ Hturn), !fmap_cons.
    split; [by rewrite Hitems|].
    exists w2. split.
    + cbn [for_fold]. erewrite bind_ok by exact Hturn. rewrite Hrest.
      do 2 f_equal. cbn [List.filter].
      destruct (completed source (item, n, w)); cbn [length]; lia.
    + rewrite Hcons2, Hcons. by rewrite <- app_assoc.
Qed.

(** C4: a failure of the crop, filter and save of one descriptor is caught
    and logged, and the loop goes on: every descriptor of the table gets
    its turn, in order; the loop does not raise; it prints one line for
    each turn and then the count [N/M], where [M] is the size of the table
    and [N] the number of turns whose crop, filter and save completed
    without an exception. *)
Theorem extraction_best_effort assets source w :
  let ts := turns assets 0 (extract_item source) w in
  let N := Z.of_nat (length (List.filter (completed source) ts)) in
  let M := Z.of_nat (length assets) in
  ts.*1.*1 = assets ∧
  (extract_loop assets source w).1 = Ok () ∧
  console (extract_loop assets source w).2 =
    console w ++ (turn_message source <$> ts) ++ [count_message N M].
Proof.
  destruct (extract_turns source assets 0 w) as (Hitems & w1 & Hrun & Hcons).
  split; [done|]. unfold extract_loop.
  erewrite bind_ok by exact Hrun. simpl. split; [done|].
  by rewrite Hcons, <- app_assoc.
Qed.

(** ** Loading the source image *)

Lemma preserves_ret I {A} (a : A) : preserves I (mret a).
Proof. by intros w r w' [= <- <-]. Qed.

Lemma preserves_bind I {A B} (m : M A) (k : A → M B) :
  preserves I m → (∀ a, preserves I (k a)) → preserves I (m ≫= k).
Proof.
  intros Hm Hk w r w' H HI. apply bind_inv in H as [(a & w1 & H1 & H2)|(e & H1 & _)].
  - eapply Hk; [exact H2|]. by eapply Hm.
  - by eapply Hm.
Qed.

Lemma preserves_for_each I {A} (xs : list A) (body : A → M unit) :
  (∀ x, preserves I (body x)) → preserves I (for_each xs body).
Proof.
  intros Hbody. induction xs as [|x xs IH]; simpl.
  - apply preserves_ret.
  - apply preserves_bind; [apply Hbody|done].
Qed.

(** A file that exists is still there, unchanged, after [os.makedirs]. *)
Lemma preserves_os_makedirs p f path :
  preserves (λ w, disk w !! p = Some f) (os_makedirs path).
Proof.
  intros w r w' H Hp. unfold os_makedirs in H.
  destruct (fault w _ _); [by injection H as <- <-|].
  destruct (disk w !! path) as [[]|] eqn:Hpath; injection H as <- <-; try done.
  simpl. rewrite lookup_insert_ne; [done|]. intros <-. congruence.
Qed.

Lemma preserves_print_disk (I : gmap string file → Prop) s :
  preserves (λ w, I (disk w)) (print s).
Proof. by intros w r w' [= <- <-]. Qed.

Lemma preserves_create_directories p f :
  preserves (λ w, disk w !! p = Some f) create_directories.
Proof.
  apply preserves_for_each. intros d. apply preserves_bind.
  - apply preserves_os_makedirs.
  - intros _. apply (preserves_print_disk (λ dk, dk !! p = Some f)).
Qed.

Lemma to_RGBA_id im : im_mode im = RGBA → to_RGBA im = im.
Proof. destruct im as [m sz rows]. simpl. intros ->. done. Qed.

(** An image file loads: the source object is its RGBA conversion. *)
Lemma load_source_ok source_path im w :
  disk w !! source_path = Some (ImageFile im) →
  ∃ source w1, load_source source_path w = (Ok source, w1) ∧
    heap w1 !! source = Some (to_RGBA im) ∧
    disk w1 = disk w ∧ fault w1 = fault w.
Proof.
  intros Hfile. unfold load_source.
  set (l := fresh (dom (heap w))).
  assert (Image_open source_path w = (Ok l, set_heap <[l := im]> w)) as Hopen.
  { unfold Image_open. by rewrite Hfile. }
  erewrite bind_ok by exact Hopen.
  assert (∀ w2 l2 im2, heap w2 !! l2 = Some im2 →
            get_mode l2 w2 = (Ok (im_mode im2), w2)) as Hmode.
  { intros w2 l2 im2 H2. unfold get_mode. by erewrite bind_ok by (by apply deref_ok). }
  assert (∀ w2 l2 im2, heap w2 !! l2 = Some im2 →
            get_size l2 w2 = (Ok (im_size im2), w2)) as Hsize.
  { intros w2 l2 im2 H2. unfold get_size. by erewrite bind_ok by (by apply deref_ok). }
  erewrite bind_ok by (apply Hmode; simpl; apply lookup_insert_eq).
  case_bool_decide as Hm.
  - set (w1 := set_heap <[l := im]> w).
    set (l' := fresh (dom (heap w1))).
    assert (convert_RGBA l w1 = (Ok l', set_heap <[l' := to_RGBA im]> w1)) as Hconv.
    { unfold convert_RGBA. erewrite bind_ok by (apply deref_ok; simpl; apply lookup_insert_eq).
      reflexivity. }
    erewrite bind_ok by exact Hconv.
    erewrite bind_ok by (apply Hsize; simpl; apply lookup_insert_eq).
    erewrite bind_ok by reflexivity.
    erewrite bind_ok by (apply Hmode; simpl; apply lookup_insert_eq).
    erewrite bind_ok by reflexivity.
    eexists _, _. split; [reflexivity|]. simpl.
    by rewrite lookup_insert_eq.
  - erewrite bind_ok by reflexivity.
    erewrite bind_ok by (apply Hsize; simpl; apply lookup_insert_eq).
    erewrite bind_ok by reflexivity.
    erewrite bind_ok by (apply Hmode; simpl; apply lookup_insert_eq).
    erewrite bind_ok by reflexivity.
    eexists _, _. split; [reflexivity|]. simpl.
    by rewrite lookup_insert_eq, to_RGBA_id.
Qed.

(** Anything else at the path, or nothing, makes the load raise. *)
Lemma load_source_raise source_path w :
  (∀ im, disk w !! source_path ≠ Some (ImageFile im)) →
  ∃ e, load_source source_path w = (Raise e, w).
Proof.
  intros Hfile. unfold load_source.
  assert (∃ e, Image_open source_path w = (Raise e, w)) as [e Hopen].
  { unfold Image_open. destruct (disk w !! source_path) as [[im| |]|]; eauto.
    by destruct (Hfile im). }
  exists e. by erewrite bind_raise by exact Hopen.
Qed.

Lemma extract_loop_returns assets source w :
  ∃ w', extract_loop assets source w = (Ok (), w').
Proof.
  destruct (extract_turns source assets 0 w) as (_ & w1 & Hrun & _).
  unfold extract_loop. erewrite bind_ok by exact Hrun. by eexists.
Qed.

(** [extract_assets] returns [True] when the load returns and [False]
    when it raises, and it never raises itself. *)
Lemma extract_assets_result assets source_path w :
  (extract_assets_from assets source_path w).1 =
  Ok (match (load_source source_path
               (print (nl +:+ "Loading source image: " +:+ source_path) w).2).1 with
      | Ok _ => true
      | Raise _ => false
      end).
Proof.
  set (w0 := (print _ w).2). unfold extract_assets_from.
  rewrite (bind_ok _ _ w () w0) by reflexivity.
  destruct (load_source source_path w0) as [[source|e] w1] eqn:Hload; simpl.
  - erewrite bind_ok; last first.
    { unfold try_except. erewrite bind_ok by exact Hload. reflexivity. }
    destruct (extract_loop_returns assets source w1) as [w2 Hloop].
    by erewrite bind_ok by exact Hloop.
  - erewrite bind_ok; last first.
    { unfold try_except. erewrite bind_raise by exact Hload. reflexivity. }
    done.
Qed.

(** C10: [extract_assets] returns [True] exactly when loading the source
    returns, and [False] exactly when it raises, whatever happens to the
    descriptors; and [main], once the source file is an image and the
    directories are made, goes on to steps 3 to 5, whatever the table and
    whatever the environment refuses to save. *)
Theorem extraction_succeeds_when_loaded assets w :
  (∀ source_path,
     (extract_assets_from assets source_path w).1 =
     Ok (match (load_source source_path
                  (print (nl +:+ "Loading source image: " +:+ source_path) w).2).1 with
         | Ok _ => true
         | Raise _ => false
         end)) ∧
  (∀ im,
     disk w !! SOURCE_IMAGE = Some (ImageFile im) →
     (∀ w1, disk w1 = disk w → fault w1 = fault w →
            (create_directories w1).1 = Ok ()) →
     ∃ w3, main_from assets w = main_after_extraction w3).
Proof.
  split; [intros; apply extract_assets_result|].
  intros im Hsrc Hdirs. unfold main_from.
  do 3 erewrite bind_ok by reflexivity.
  erewrite bind_ok; last first.
  { unfold os_path_exists. simpl. rewrite Hsrc.
    rewrite bool_decide_eq_true_2 by eauto. reflexivity. }
  cbn [negb]. erewrite bind_ok by reflexivity.
  match goal with |- context [(create_directories ≫= _) ?w1] =>
    pose proof (Hdirs w1 eq_refl eq_refl) as Hok;
    destruct (create_directories w1) as [[[]|e] w2] eqn:Hrun; [|done];
    pose proof (preserves_create_directories SOURCE_IMAGE (ImageFile im)
                  _ _ _ Hrun Hsrc) as Hsrc2
  end.
  erewrite bind_ok by exact Hrun.
  erewrite bind_ok by reflexivity.
  match goal with |- context [(extract_assets_from assets SOURCE_IMAGE ≫= _) ?w2'] =>
    pose proof (extract_assets_result assets SOURCE_IMAGE w2') as Hres;
    destruct (load_source_ok SOURCE_IMAGE im
                (print (nl +:+ "Loading source image: " +:+ SOURCE_IMAGE) w2').2 Hsrc2)
      as (source & w' & Hload & _);
    rewrite Hload in Hres;
    destruct (extract_assets_from assets SOURCE_IMAGE w2') as [r w3] eqn:Hext
  end.
  simpl in Hres. subst r. erewrite bind_ok by exact Hext.
  cbn [negb]. by exists w3.
Qed.

Lemma extraction_succeeds_when_loaded_witness :
  (extract_assets SOURCE_IMAGE full_disk_world).1 = Ok true ∧
  ∃ w3, main full_disk_world = main_after_extraction w3.
Proof.
  destruct (extraction_succeeds_when_loaded ASSETS full_disk_world) as [Hret Hmain].
  split.
  - unfold extract_assets. rewrite (Hret SOURCE_IMAGE). reflexivity.
  - unfold main. apply (Hmain two_pixels).
    + reflexivity.
    + intros [hp dk cs ft]. simpl. intros -> ->. reflexivity.
Defined.

Lemma source_never_mutated_witness :
  heap (extract_loop [("gray.png", AssetInfo (0, 0, 1, 1) "the gray pixel")] 0%nat
          (quiet_world [(0%nat, two_pixels)] [])).2 !! 0%nat = Some two_pixels ∧
  disk (extract_loop [("gray.png", AssetInfo (0, 0, 1, 1) "the gray pixel")] 0%nat
          (quiet_world [(0%nat, two_pixels)] [])).2
    !! os_path_join OUTPUT_BASE "gray.png" =
  Some (ImageFile (Image RGBA (1, 1) [[(200, 200, 200, 0)]])).
Proof.
  split.
  - apply source_never_mutated. reflexivity.
  - vm_compute. reflexivity.
Defined.

(** ** Cropping a region *)

Lemma crop_ok l im x0 y0 x1 y1 w :
  heap w !! l = Some im → x0 ≤ x1 → y0 ≤ y1 →
  crop l (x0, y0, x1, y1) w =
  (Ok (fresh (dom (heap w))),
   set_heap <[fresh (dom (heap w)) := crop_image im (x0, y0, x1, y1)]> w).
Proof.
  intros Hl Hx Hy. unfold crop.
  rewrite !(proj2 (Z.ltb_ge _ _)) by lia.
  by erewrite bind_ok by (by apply deref_ok).
Qed.

Lemma crop_inverted l x0 y0 x1 y1 w :
  x1 < x0 ∨ y1 < y0 → ∃ e, crop l (x0, y0, x1, y1) w = (Raise e, w).
Proof.
  intros H. unfold crop. destruct (Z.ltb_spec x1 x0); [by eexists|].
  destruct (Z.ltb_spec y1 y0); [by eexists|]. lia.
Qed.

Lemma well_formed_crop_image im x0 y0 x1 y1 :
  x0 ≤ x1 → y0 ≤ y1 → well_formed (crop_image im (x0, y0, x1, y1)).
Proof.
  intros Hx Hy. unfold well_formed, crop_image, width, height; simpl.
  repeat split; [lia|lia| |].
  - by rewrite length_fmap, length_seqZ.
  - apply Forall_fmap, Forall_forall. intros y _. simpl.
    by rewrite length_fmap, length_seqZ.
Qed.


(** A rectangle that meets the image is clamped to what they share, a
    box that [crop] accepts. *)
Lemma clamped_box_overlap x y w h W H :
  0 ≤ W → 0 ≤ H → 0 ≤ w → 0 ≤ h → x ≤ W → y ≤ H → 0 ≤ x + w → 0 ≤ y + h →
  ∃ x0 y0 x1 y1, clamped_box (x, y, w, h) (W, H) = (x0, y0, x1, y1) ∧
    0 ≤ x0 ≤ x1 ∧ x1 ≤ W ∧ 0 ≤ y0 ≤ y1 ∧ y1 ≤ H ∧
    ∀ i j, (x0 ≤ i < x1 ∧ y0 ≤ j < y1) ↔
           (x ≤ i < x + w ∧ y ≤ j < y + h) ∧ (0 ≤ i < W ∧ 0 ≤ j < H).
Proof.
  intros. eexists _, _, _, _. split; [reflexivity|]. simpl.
  split; [lia|]. split; [lia|]. split; [lia|]. split; [lia|].
  intros i j. lia.
Qed.

(** A rectangle wholly to the right of the image, or below it, is clamped
    to an inverted box. *)
Lemma clamped_box_outside x y w h W H :
  0 ≤ w → 0 ≤ h → W < x ∨ H < y →
  ∃ x0 y0 x1 y1, clamped_box (x, y, w, h) (W, H) = (x0, y0, x1, y1) ∧
    (x1 < x0 ∨ y1 < y0).
Proof.
  intros. eexists _, _, _, _. split; [reflexivity|]. simpl. lia.
Qed.

(** A region wholly to the right of the source, or below it, makes the
    [try] block raise: [crop] refuses its clamped box. *)
Lemma extract_one_outside_raises source im w output_path info x y wd ht :
  heap w !! source = Some im →
  region info = (x, y, wd, ht) →
  0 ≤ wd → 0 ≤ ht → width im < x ∨ height im < y →
  ∃ e, extract_one source output_path info w = (Raise e, w).
Proof.
  intros Hl Hreg Hwd Hht Hout. unfold extract_one. rewrite Hreg. cbv beta iota.
  erewrite bind_ok; last first.
  { unfold get_size. by erewrite bind_ok by (by apply deref_ok). }
  unfold width, height in Hout. destruct (im_size im) as [W H].
  destruct (clamped_box_outside x y wd ht W H Hwd Hht Hout)
    as (x0 & y0 & x1 & y1 & -> & Hinv).
  destruct (crop_inverted source x0 y0 x1 y1 w Hinv) as [e Hcrop].
  exists e. by erewrite bind_raise by exact Hcrop.
Qed.



(** C1: at the descriptor (675, 12, 175, 45) of the table and a source of
    512 by 280 pixels, the clamped box is (675, 12, 512, 57): its left
    edge is outside the image and right of its right edge.  [crop] refuses
    it, the [try] block raises, and the loop prints the error line of the
    descriptor; of the 29 descriptors of the table, 12 are extracted. *)
Theorem region_beyond_image_raises :
  let w := quiet_world [] [(SOURCE_IMAGE, ImageFile half_composite)] in
  clamped_box (675, 12, 175, 45) (512, 280) = (675, 12, 512, 57) ∧
  (extract_one 0%nat "backgrounds/digital-void/layer1-far.png"
     (AssetInfo (675, 12, 175, 45) "Digital Void far background")
     (quiet_world [(0%nat, half_composite)] [])).1 =
    Raise (ValueError "Coordinate 'right' is less than 'left'") ∧
  (extract_assets SOURCE_IMAGE w).1 = Ok true ∧
  console (extract_assets SOURCE_IMAGE w).2 !! 13%nat =
    Some "[ERROR] Error extracting backgrounds/digital-void/layer1-far.png: Coordinate 'right' is less than 'left'" ∧
  last (console (extract_assets SOURCE_IMAGE w).2) = Some (count_message 12 29).
Proof.
  cbv zeta. split; [reflexivity|]. split; [reflexivity|].
  set (run := extract_assets SOURCE_IMAGE _).
  assert ((run.1, console run.2 !! 13%nat, last (console run.2)) =
          (Ok true,
           Some "[ERROR] Error extracting backgrounds/digital-void/layer1-far.png: Coordinate 'right' is less than 'left'",
           Some (count_message 12 29))) as Hrun
    by (vm_compute; reflexivity).
  clearbody run. by injection Hrun as -> -> ->.
Qed.

(** ** Slicing a spritesheet *)







Lemma open_convert {B} path im (k : nat → M B) w :
  disk w !! path = Some (ImageFile im) →
  (Image_open path ≫= λ sheet,
     get_mode sheet ≫= λ m,
       (if bool_decide (m ≠ RGBA) then convert_RGBA sheet else mret sheet) ≫= k) w =
  k (opened im w).1 (opened im w).2.
Proof.
  intros Hfile. set (l := fresh (dom (heap w))).
  assert (Image_open path w = (Ok l, set_heap <[l := im]> w)) as Hopen.
  { unfold Image_open. by rewrite Hfile. }
  erewrite bind_ok by exact Hopen.
  erewrite bind_ok; last first.
  { unfold get_mode.
    erewrite bind_ok by (apply deref_ok; simpl; apply lookup_insert_eq). reflexivity. }
  unfold opened. fold l. cbv zeta. case_bool_decide.
  - erewrite bind_ok; [reflexivity|]. unfold convert_RGBA.
    erewrite bind_ok by (apply deref_ok; simpl; apply lookup_insert_eq). reflexivity.
  - by erewrite bind_ok by reflexivity.
Qed.

Lemma opened_heap im w : heap (opened im w).2 !! (opened im w).1 = Some (to_RGBA im).
Proof.
  unfold opened. cbv zeta. case_bool_decide as Hm; simpl.
  - by rewrite lookup_insert_eq.
  - by rewrite lookup_insert_eq, to_RGBA_id.
Qed.

Lemma opened_frame im w :
  disk (opened im w).2 = disk w ∧ console (opened im w).2 = console w ∧
  fault (opened im w).2 = fault w.
Proof. unfold opened. cbv zeta. by case_bool_decide. Qed.












(** * More of the script *)

(** ** The filter on an image of another mode *)





(** X2: whatever the image and whatever the outcome, the filter does no
    input or output (the files and the console are as before) and leaves
    every other live image object as it is. *)
Theorem keying_touches_one_object l w :
  disk (remove_checkered_background l w).2 = disk w ∧
  console (remove_checkered_background l w).2 = console w ∧
  ∀ l0 im0, l0 ≠ l → heap w !! l0 = Some im0 →
    heap (remove_checkered_background l w).2 !! l0 = Some im0.
Proof.
  destruct (remove_checkered_background l w) as [r w'] eqn:Hrun. simpl.
  destruct (silent_remove_checkered_background l _ _ _ Hrun) as (Hd & Hc & _).
  split; [done|]. split; [done|]. intros l0 im0 Hne Hl0.
  by destruct (keeps_remove_checkered_background l0 l (not_eq_sym Hne) _ _ _ _ Hrun Hl0).
Qed.

Lemma keying_touches_one_object_witness :
  heap (remove_checkered_background 0%nat
          (quiet_world [(0%nat, two_pixels); (1%nat, two_pixels)] [])).2 !! 1%nat =
  Some two_pixels.
Proof.
  destruct (keying_touches_one_object 0%nat
              (quiet_world [(0%nat, two_pixels); (1%nat, two_pixels)] []))
    as (_ & _ & Hkeep).
  apply Hkeep; [discriminate|reflexivity].
Defined.

(** ** What the [try] block of the extraction saves *)


(** The run of the [try] block on a region whose clamped box is well
    oriented. *)
Lemma extract_one_run source im w output_path info x y wd ht x0 y0 x1 y1 :
  heap w !! source = Some im → im_mode im = RGBA →
  region info = (x, y, wd, ht) →
  clamped_box (x, y, wd, ht) (im_size im) = (x0, y0, x1, y1) →
  x0 ≤ x1 → y0 ≤ y1 →
  let out := key_image (crop_image im (x0, y0, x1, y1)) in
  let full_output_path := os_path_join OUTPUT_BASE output_path in
  let w1 := set_heap <[fresh (dom (heap w)) := out]> w in
  extract_one source output_path info w =
  match fault w (SaveImage full_output_path out) (disk w) with
  | None =>
      (Ok (), set_console (λ c, c ++ [ok_message output_path wd ht])
                (set_disk <[full_output_path := ImageFile out]> w1))
  | Some e => (Raise e, w1)
  end.
Proof.
  intros Hl Hmode Hreg Hbox Hx Hy out full_output_path w1.
  assert (well_formed (crop_image im (x0, y0, x1, y1))) as Hwf
    by (by apply well_formed_crop_image).
  unfold extract_one. rewrite Hreg. cbv beta iota.
  erewrite bind_ok; last first.
  { unfold get_size. by erewrite bind_ok by (by apply deref_ok). }
  rewrite Hbox.
  erewrite bind_ok by (by apply crop_ok).
  set (l := fresh (dom (heap w))).
  erewrite bind_ok; last first.
  { apply (remove_checkered_background_RGBA l (crop_image im (x0, y0, x1, y1)));
      [|exact Hmode|exact Hwf].
    simpl. apply lookup_insert_eq. }
  rewrite set_heap_insert_insert. fold out full_output_path w1.
  assert (save l full_output_path w1 = write_image full_output_path out w1) as Hsave.
  { unfold save. by erewrite bind_ok by (apply deref_ok; simpl; apply lookup_insert_eq). }
  unfold write_image in Hsave. simpl in Hsave.
  destruct (fault w (SaveImage full_output_path out) (disk w)) as [e|].
  - by erewrite bind_raise by exact Hsave.
  - by erewrite bind_ok by exact Hsave.
Qed.





(** ** Where the extraction writes *)


Lemma preserves_try_except I {A} (body : M A) (handler : exn → M A) :
  preserves I body → (∀ e, preserves I (handler e)) →
  preserves I (try_except body handler).
Proof.
  intros Hb Hh w r w' H HI. unfold try_except in H.
  destruct (body w) as [[a|e] w1] eqn:Hbody.
  - injection H as <- <-. by eapply Hb.
  - eapply Hh; [exact H|]. by eapply Hb.
Qed.

Lemma preserves_for_fold I {A S} (xs : list A) (body : A → S → M S) s :
  (∀ x s', x ∈ xs → preserves I (body x s')) → preserves I (for_fold xs s body).
Proof.
  revert s. induction xs as [|x xs IH]; intros s Hbody; simpl.
  - apply preserves_ret.
  - apply preserves_bind; [apply Hbody; left|].
    intros s'. apply IH. intros x' s'' Hin. apply Hbody. by right.
Qed.

Lemma preserves_for_each_in I {A} (xs : list A) (body : A → M unit) :
  (∀ x, x ∈ xs → preserves I (body x)) → preserves I (for_each xs body).
Proof.
  induction xs as [|x xs IH]; intros Hbody; simpl.
  - apply preserves_ret.
  - apply preserves_bind; [apply Hbody; left|].
    intros _. apply IH. intros x' Hin. apply Hbody. by right.
Qed.

(** What does no input or output maintains every condition on the files. *)
Lemma preserves_silent (D : gmap string file → Prop) {A} (m : M A) :
  silent m → preserves (λ w, D (disk w)) m.
Proof. intros Hm w r w' H HD. destruct (Hm _ _ _ H) as (-> & _). done. Qed.

Lemma silent_Image_open path : silent (Image_open path).
Proof.
  intros w r w'. unfold Image_open.
  destruct (disk w !! path) as [[im| |]|]; intros [= <- <-]; done.
Qed.

Lemma preserves_write_image p o path im :
  path ≠ p → preserves (λ w, disk w !! p = o) (write_image path im).
Proof.
  intros Hne w r w' H Hp. unfold write_image in H.
  destruct (fault w _ _); injection H as <- <-; [done|].
  simpl. by rewrite lookup_insert_ne.
Qed.

Lemma preserves_save p o l path :
  path ≠ p → preserves (λ w, disk w !! p = o) (save l path).
Proof.
  intros Hne. apply preserves_bind.
  - apply (preserves_silent (λ d, d !! p = o)), silent_deref.
  - intros im. by apply preserves_write_image.
Qed.

Lemma preserves_load_source (D : gmap string file → Prop) source_path :
  preserves (λ w, D (disk w)) (load_source source_path).
Proof.
  apply preserves_bind; [apply preserves_silent, silent_Image_open|]. intros source.
  apply preserves_bind; [apply preserves_silent, silent_get_mode|]. intros m.
  apply preserves_bind.
  { case_bool_decide; [apply preserves_silent, silent_convert_RGBA|apply preserves_ret]. }
  intros source'.
  apply preserves_bind; [apply preserves_silent, silent_get_size|]. intros size.
  apply preserves_bind; [apply preserves_print_disk|]. intros _.
  apply preserves_bind; [apply preserves_silent, silent_get_mode|]. intros m'.
  apply preserves_bind; [apply preserves_print_disk|]. intros _.
  apply preserves_ret.
Qed.

Lemma preserves_extract_one p o source output_path info :
  os_path_join OUTPUT_BASE output_path ≠ p →
  preserves (λ w, disk w !! p = o) (extract_one source output_path info).
Proof.
  intros Hne. unfold extract_one. destruct (region info) as [[[x y] wd] ht].
  apply preserves_bind;
    [apply (preserves_silent (λ d, d !! p = o)), silent_get_size|]. intros size.
  apply preserves_bind;
    [apply (preserves_silent (λ d, d !! p = o)), silent_crop|]. intros cropped.
  apply preserves_bind;
    [apply (preserves_silent (λ d, d !! p = o)), silent_remove_checkered_background|].
  intros cropped'.
  apply preserves_bind; [by apply preserves_save|]. intros _.
  apply (preserves_print_disk (λ d, d !! p = o)).
Qed.

Lemma preserves_extract_item p o source item n :
  os_path_join OUTPUT_BASE item.1 ≠ p →
  preserves (λ w, disk w !! p = o) (extract_item source item n).
Proof.
  destruct item as [output_path info]. intros Hne. apply preserves_try_except.
  - apply preserves_bind; [by apply preserves_extract_one|].
    intros. apply preserves_ret.
  - intros e. apply preserves_bind;
      [apply (preserves_print_disk (λ d, d !! p = o))|].
    intros. apply preserves_ret.
Qed.

(** X5: [extract_assets] writes at the output paths of its table and
    nowhere else: any other path holds after the run what it held
    before, whether the run loads the source or not and whatever fails. *)
Theorem extraction_writes_only_outputs assets source_path w p :
  p ∉ (os_path_join OUTPUT_BASE <$> assets.*1) →
  disk (extract_assets_from assets source_path w).2 !! p = disk w !! p.
Proof.
  intros Hp. destruct (extract_assets_from assets source_path w) as [r w'] eqn:Hrun.
  simpl. revert Hrun. generalize (eq_refl (disk w !! p)).
  generalize (disk w !! p) at 2 3. intros o Ho Hrun.
  assert (preserves (λ w, disk w !! p = o) (extract_assets_from assets source_path))
    as Hpres; [|by apply (Hpres _ _ _ Hrun)].
  apply preserves_bind; [apply (preserves_print_disk (λ d, d !! p = o))|]. intros _.
  apply preserves_bind.
  { apply preserves_try_except.
    - apply preserves_bind;
        [apply (preserves_load_source (λ d, d !! p = o))|intros; apply preserves_ret].
    - intros e. apply preserves_bind;
        [apply (preserves_print_disk (λ d, d !! p = o))|intros; apply preserves_ret]. }
  intros [source|]; [|apply preserves_ret].
  apply preserves_bind; [|intros; apply preserves_ret].
  apply preserves_bind; [|intros; apply (preserves_print_disk (λ d, d !! p = o))].
  apply preserves_for_fold. intros item n Hin.
  apply preserves_extract_item. intros <-. apply Hp.
  apply list_elem_of_fmap. exists item.1. split; [done|].
  apply list_elem_of_fmap. by exists item.
Qed.

Lemma extraction_writes_only_outputs_witness :
  disk (extract_assets SOURCE_IMAGE
          (quiet_world [] [(SOURCE_IMAGE, ImageFile two_pixels)])).2 !! SOURCE_IMAGE =
  Some (ImageFile two_pixels).
Proof.
  unfold extract_assets. rewrite extraction_writes_only_outputs; [reflexivity|].
  apply (bool_decide_unpack _). vm_compute. reflexivity.
Defined.

(** X6: when the source path holds no image file, [extract_assets]
    returns [False] after two lines, the one that announces the load and
    the one with the error, and nothing else has changed: no object, no
    file, no descriptor processed. *)
Theorem extraction_load_failure assets source_path w :
  (∀ im, disk w !! source_path ≠ Some (ImageFile im)) →
  ∃ e, extract_assets_from assets source_path w =
       (Ok false,
        set_console (λ c, (c ++ [nl +:+ "Loading source image: " +:+ source_path])
                            ++ ["Error loading image: " +:+ exn_str e]) w).
Proof.
  intros Hfile. unfold extract_assets_from.
  erewrite bind_ok by reflexivity.
  match goal with |- context [(try_except _ _ ≫= _) ?w0] =>
    destruct (load_source_raise source_path w0) as [e Hload]; [exact Hfile|]
  end.
  exists e. erewrite bind_ok; last first.
  { unfold try_except. erewrite bind_raise by exact Hload. reflexivity. }
  reflexivity.
Qed.

Lemma extraction_load_failure_witness :
  extract_assets SOURCE_IMAGE (quiet_world [] []) =
  (Ok false,
   set_console (λ c, (c ++ [nl +:+ "Loading source image: " +:+ SOURCE_IMAGE])
                       ++ ["Error loading image: No such file or directory: " +:+
                           SOURCE_IMAGE]) (quiet_world [] [])).
Proof.
  destruct (extraction_load_failure ASSETS SOURCE_IMAGE (quiet_world [] []))
    as [e He]; [done|].
  unfold extract_assets. reflexivity.
Defined.

(** ** The extraction from the file to the file *)

(** The run of the [try] block that loads the source. *)
Lemma load_source_run source_path im w :
  disk w !! source_path = Some (ImageFile im) →
  load_source source_path w =
  (Ok (opened im w).1,
   set_console (λ c, (c ++ ["Image size: " +:+ pair_str (im_size im)])
                       ++ ["Image mode: RGBA"]) (opened im w).2).
Proof.
  intros Hfile. unfold load_source. rewrite (open_convert source_path im _ w Hfile).
  pose proof (opened_heap im w) as Hh.
  destruct (opened im w) as [source w1]. cbn [fst snd] in *.
  erewrite bind_ok; last first.
  { unfold get_size. erewrite bind_ok by (by apply deref_ok). reflexivity. }
  erewrite bind_ok by reflexivity.
  erewrite bind_ok; last first.
  { unfold get_mode. erewrite bind_ok by (by apply deref_ok). reflexivity. }
  erewrite bind_ok by reflexivity.
  reflexivity.
Qed.

(** X7: with a table of one descriptor whose region meets the image,
    [extract_assets] on an image file of any mode returns [True], having
    written one file: the keyed crop, by the clamped box, of the RGBA
    conversion of the source.  It prints the load, the size and the mode
    (always RGBA), the line of the descriptor with its declared size, and
    the count 1/1. *)
Theorem extraction_of_one_descriptor output_path info source_path im w x y wd ht :
  disk w !! source_path = Some (ImageFile im) →
  0 ≤ width im → 0 ≤ height im →
  region info = (x, y, wd, ht) →
  0 ≤ wd → 0 ≤ ht →
  x ≤ width im → y ≤ height im → 0 ≤ x + wd → 0 ≤ y + ht →
  let box := (0 `max` x, 0 `max` y, width im `min` (x + wd), height im `min` (y + ht)) in
  let out := key_image (crop_image (to_RGBA im) box) in
  let full_output_path := os_path_join OUTPUT_BASE output_path in
  fault w (SaveImage full_output_path out) (disk w) = None →
  (extract_assets_from [(output_path, info)] source_path w).1 = Ok true ∧
  disk (extract_assets_from [(output_path, info)] source_path w).2 =
    <[full_output_path := ImageFile out]> (disk w) ∧
  console (extract_assets_from [(output_path, info)] source_path w).2 =
    console w ++
    [nl +:+ "Loading source image: " +:+ source_path;
     "Image size: " +:+ pair_str (im_size im);
     "Image mode: RGBA";
     ok_message output_path wd ht;
     count_message 1 1].
Proof.
  intros Hfile HW HH Hreg Hwd Hht Hx Hy Hxw Hyh box out full_output_path Hsave.
  unfold extract_assets_from.
  erewrite bind_ok by reflexivity.
  set (w0 := set_console _ w).
  assert (disk w0 !! source_path = Some (ImageFile im)) as Hfile0 by done.
  erewrite bind_ok; last first.
  { unfold try_except. erewrite bind_ok by (by apply load_source_run). reflexivity. }
  destruct (opened_frame im w0) as (Hd & Hc & Hf).
  pose proof (opened_heap im w0) as Hh.
  destruct (opened im w0) as [source w1]. cbn [fst snd] in *.
  set (w2 := set_console _ w1).
  assert (extract_one source output_path info w2 =
          (Ok (), set_console (λ c, c ++ [ok_message output_path wd ht])
                    (set_disk <[full_output_path := ImageFile out]>
                       (set_heap <[fresh (dom (heap w2)) := out]> w2)))) as Hone.
  { rewrite (extract_one_run source (to_RGBA im) w2 output_path info x y wd ht
               (0 `max` x) (0 `max` y)
               (width im `min` (x + wd)) (height im `min` (y + ht)));
      [|exact Hh|done|done| |lia|lia].
    - fold box out full_output_path.
      replace (fault w2) with (fault w) by (simpl; by rewrite Hf).
      replace (disk w2) with (disk w) by (simpl; by rewrite Hd).
      by rewrite Hsave.
    - unfold clamped_box, width, height. simpl. by destruct (im_size im). }
  match type of Hone with _ = (_, ?w3) =>
    assert (extract_loop [(output_path, info)] source w2 =
            (Ok (), set_console (λ c, c ++ [count_message 1 1]) w3)) as Hloop
  end.
  { unfold extract_loop. erewrite bind_ok; [reflexivity|].
    cbn [for_fold]. erewrite bind_ok; [reflexivity|].
    unfold extract_item, try_except. by erewrite bind_ok by exact Hone. }
  erewrite bind_ok by exact Hloop.
  cbn [fst snd]. split; [done|]. split.
  - simpl. by rewrite Hd.
  - simpl. rewrite Hc. simpl. by rewrite <- !app_assoc.
Qed.

(** A JPEG-like source: the gray pixel of an RGB file is saved
    transparent. *)
Lemma extraction_of_one_descriptor_witness :
  (extract_assets_from [("gray.png", AssetInfo (0, 0, 1, 1) "the gray pixel")]
     SOURCE_IMAGE (quiet_world [] [(SOURCE_IMAGE, ImageFile two_pixels_rgb)])).1 =
    Ok true ∧
  disk (extract_assets_from [("gray.png", AssetInfo (0, 0, 1, 1) "the gray pixel")]
          SOURCE_IMAGE (quiet_world [] [(SOURCE_IMAGE, ImageFile two_pixels_rgb)])).2
    !! os_path_join OUTPUT_BASE "gray.png" =
    Some (ImageFile (Image RGBA (1, 1) [[(200, 200, 200, 0)]])).
Proof.
  destruct (extraction_of_one_descriptor "gray.png"
              (AssetInfo (0, 0, 1, 1) "the gray pixel") SOURCE_IMAGE two_pixels_rgb
              (quiet_world [] [(SOURCE_IMAGE, ImageFile two_pixels_rgb)]) 0 0 1 1)
    as (Hret & Hdisk & _).
  - reflexivity.
  - unfold width, two_pixels_rgb. simpl. lia.
  - unfold height, two_pixels_rgb. simpl. lia.
  - reflexivity.
  - lia.
  - lia.
  - unfold width, two_pixels_rgb. simpl. lia.
  - unfold height, two_pixels_rgb. simpl. lia.
  - lia.
  - lia.
  - reflexivity.
  - split; [exact Hret|]. rewrite Hdisk. apply lookup_insert_eq.
Defined.

(** ** The slicers when something is missing or fails *)

(** X8: a slicer whose spritesheet file does not exist prints that it was
    not found and returns; nothing else changes: no object, no file, and
    for an effect no directory. *)
Theorem missing_sheet_is_skipped :
  (∀ fighter_name frame_width frame_height w,
     let spritesheet_path :=
       os_path_join OUTPUT_BASE
         ("sprites/fighters/" +:+ fighter_name +:+ "/spritesheet.png") in
     disk w !! spritesheet_path = None →
     split_fighter_spritesheet fighter_name frame_width frame_height w =
     (Ok (), set_console (λ c, c ++ ["Spritesheet not found: " +:+ spritesheet_path]) w)) ∧
  (∀ effect_name expected_frames w,
     let spritesheet_path :=
       os_path_join OUTPUT_BASE ("sprites/effects/" +:+ effect_name +:+ ".png") in
     disk w !! spritesheet_path = None →
     split_effect_spritesheet effect_name expected_frames w =
     (Ok (),
      set_console (λ c, c ++ ["Effect spritesheet not found: " +:+ spritesheet_path]) w)).
Proof.
  split.
  - intros fighter_name frame_width frame_height w spritesheet_path Hnone.
    unfold split_fighter_spritesheet. fold spritesheet_path.
    erewrite bind_ok; last first.
    { unfold os_path_exists. rewrite Hnone.
      rewrite bool_decide_eq_false_2 by (by intros [? ?]). reflexivity. }
    reflexivity.
  - intros effect_name expected_frames w spritesheet_path Hnone.
    unfold split_effect_spritesheet. fold spritesheet_path.
    erewrite bind_ok; last first.
    { unfold os_path_exists. rewrite Hnone.
      rewrite bool_decide_eq_false_2 by (by intros [? ?]). reflexivity. }
    reflexivity.
Qed.

Lemma missing_sheet_is_skipped_witness :
  split_fighter_spritesheet "alphabot" 37 57 (quiet_world [] []) =
    (Ok (), set_console (λ c, c ++ ["Spritesheet not found: " +:+ alphabot_sheet_path])
              (quiet_world [] [])) ∧
  disk (split_effect_spritesheet "dust" 4 (quiet_world [] [])).2 = ∅.
Proof.
  destruct missing_sheet_is_skipped as [Hfighter Heffect]. split.
  - apply Hfighter. reflexivity.
  - rewrite Heffect; reflexivity.
Defined.

(** A counting loop that returns has counted its turns. *)
Lemma for_fold_counts {A} (xs : list A) (body : A → Z → M Z) k :
  (∀ x s w r w', body x s w = (Ok r, w') → r = s + k) →
  ∀ s w r w', for_fold xs s body w = (Ok r, w') → r = s + k * Z.of_nat (length xs).
Proof.
  intros Hbody. induction xs as [|x xs IH]; intros s w r w' Hrun.
  - injection Hrun as <- _. simpl. lia.
  - simpl in Hrun. apply bind_inv in Hrun as [(s1 & w1 & H1 & Hrun)|(e & _ & [=])].
    apply Hbody in H1 as ->. apply IH in Hrun as ->. simpl length. lia.
Qed.

Lemma fighter_frame_counts sheet output_dir fw fh row col s w r w' :
  fighter_frame sheet output_dir fw fh row col s w = (Ok r, w') → r = s + 1.
Proof.
  unfold fighter_frame. intros Hrun.
  apply bind_inv in Hrun as [(frame & w1 & _ & Hrun)|(e & _ & [=])].
  apply bind_inv in Hrun as [(name & w2 & _ & Hrun)|(e & _ & [=])].
  apply bind_inv in Hrun as [([] & w3 & _ & Hrun)|(e & _ & [=])].
  by injection Hrun as <- _.
Qed.

(** X9: [split_fighter_spritesheet] never raises.  The last line it prints
    tells what happened: the sheet was not found, or the sheet was split
    into 8 frames (the count can be no other), or an error, with its
    message. *)
Theorem fighter_slicer_reports fighter_name frame_width frame_height w :
  ∃ w' line,
    split_fighter_spritesheet fighter_name frame_width frame_height w = (Ok (), w') ∧
    last (console w') = Some line ∧
    (line = "Spritesheet not found: " +:+
            os_path_join OUTPUT_BASE
              ("sprites/fighters/" +:+ fighter_name +:+ "/spritesheet.png") ∨
     line = "  [OK] Split " +:+ fighter_name +:+ " into 8 frames" ∨
     ∃ e, line = "  [ERROR] Error splitting " +:+ fighter_name +:+ ": " +:+ exn_str e).
Proof.
  unfold split_fighter_spritesheet.
  erewrite bind_ok by reflexivity.
  destruct (negb _).
  { eexists _, _. split; [reflexivity|]. split; [apply last_snoc|]. by left. }
  unfold try_except.
  match goal with |- context [let (_, _) := ?body w in _] =>
    destruct (body w) as [[[]|e] w1] eqn:Hbody
  end.
  - apply bind_inv in Hbody as [(sheet & w2 & _ & Hbody)|(e & _ & [=])].
    apply bind_inv in Hbody as [(m & w3 & _ & Hbody)|(e & _ & [=])].
    apply bind_inv in Hbody as [(sheet' & w4 & _ & Hbody)|(e & _ & [=])].
    apply bind_inv in Hbody as [([sw sh] & w5 & _ & Hbody)|(e & _ & [=])].
    cbv beta iota zeta in Hbody.
    apply bind_inv in Hbody as [([] & w6 & _ & Hbody)|(e & _ & [=])].
    apply bind_inv in Hbody as [(frame_idx & w7 & Hloop & Hbody)|(e & _ & [=])].
    apply (for_fold_counts (range 2) _ 4) in Hloop.
    + injection Hbody as <-. subst frame_idx.
      eexists _, _. split; [reflexivity|]. split; [apply last_snoc|]. by right; left.
    + intros row s w8 r w9 Hrow.
      apply (for_fold_counts (range 4) _ 1) in Hrow; [exact Hrow|].
      intros col s' w10 r' w11. apply fighter_frame_counts.
  - eexists _, _. split; [reflexivity|]. split; [apply last_snoc|]. right; right. eauto.
Qed.

(** X10: the only exception that leaves [split_effect_spritesheet] is one
    of [os.makedirs] on its output directory, which the function calls
    before its [try] block; otherwise it returns. *)
Theorem effect_slicer_raises_only_from_makedirs effect_name expected_frames w :
  let output_dir :=
    os_path_join (os_path_join OUTPUT_BASE "sprites/effects") effect_name in
  (split_effect_spritesheet effect_name expected_frames w).1 = Ok () ∨
  ∃ e, os_makedirs output_dir w = (Raise e, w) ∧
       split_effect_spritesheet effect_name expected_frames w = (Raise e, w).
Proof.
  intros output_dir. unfold split_effect_spritesheet. fold output_dir.
  erewrite bind_ok by reflexivity.
  destruct (negb _); [by left|].
  destruct (os_makedirs output_dir w) as [[[]|e] w1] eqn:Hmk.
  - left. erewrite bind_ok by exact Hmk. unfold try_except.
    match goal with |- context [let (_, _) := ?body w1 in _] =>
      by destruct (body w1) as [[[]|e] w2]
    end.
  - right. exists e.
    assert (w1 = w) as ->.
    { unfold os_makedirs in Hmk. destruct (fault w _ _); [by injection Hmk|].
      by destruct (disk w !! output_dir) as [[]|]; injection Hmk. }
    split; [done|]. by erewrite bind_raise by exact Hmk.
Qed.

(** X11: asked for 0 frames, [split_effect_spritesheet] divides by zero
    inside its [try] block: it makes the output directory, writes no
    frame, prints the error and returns. *)
Theorem effect_slicer_zero_frames effect_name im w :
  let spritesheet_path :=
    os_path_join OUTPUT_BASE ("sprites/effects/" +:+ effect_name +:+ ".png") in
  let output_dir :=
    os_path_join (os_path_join OUTPUT_BASE "sprites/effects") effect_name in
  disk w !! spritesheet_path = Some (ImageFile im) →
  fault w (MakeDirs output_dir) (disk w) = None →
  disk w !! output_dir = None ∨ disk w !! output_dir = Some Directory →
  (split_effect_spritesheet effect_name 0 w).1 = Ok () ∧
  disk (split_effect_spritesheet effect_name 0 w).2 =
    <[output_dir := Directory]> (disk w) ∧
  last (console (split_effect_spritesheet effect_name 0 w).2) =
    Some ("  [ERROR] Error splitting " +:+ effect_name +:+
          ": integer division or modulo by zero").
Proof.
  intros spritesheet_path output_dir Hfile Hq Hdir.
  unfold split_effect_spritesheet. fold spritesheet_path output_dir.
  erewrite bind_ok; last first.
  { unfold os_path_exists. rewrite Hfile, bool_decide_eq_true_2 by eauto. reflexivity. }
  cbn [negb].
  assert (∃ w0, os_makedirs output_dir w = (Ok (), w0) ∧
                disk w0 = <[output_dir := Directory]> (disk w)) as (w0 & Hmk & Hd0).
  { unfold os_makedirs. rewrite Hq. destruct Hdir as [Hdir|Hdir]; rewrite Hdir.
    - by eexists.
    - exists w. by rewrite insert_id. }
  erewrite bind_ok by exact Hmk.
  assert (disk w0 !! spritesheet_path = Some (ImageFile im)) as Hfile0.
  { rewrite Hd0, lookup_insert_ne; [done|]. intros Heq. rewrite Heq in Hdir.
    destruct Hdir; congruence. }
  unfold try_except.
  rewrite (open_convert spritesheet_path im _ w0 Hfile0).
  destruct (opened_frame im w0) as (Hd & Hc & Hf).
  pose proof (opened_heap im w0) as Hh.
  destruct (opened im w0) as [sheet w1]. cbn [fst snd] in *.
  erewrite bind_ok; last first.
  { unfold get_size. erewrite bind_ok by (by apply deref_ok). reflexivity. }
  destruct (im_size (to_RGBA im)) as [W H]. cbv beta iota zeta.
  change (0 =? 0) with true. cbv iota.
  erewrite bind_raise by reflexivity.
  cbn [fst snd]. split; [done|]. split.
  - simpl. by rewrite Hd.
  - simpl. by rewrite last_snoc.
Qed.

Lemma effect_slicer_zero_frames_witness :
  (split_effect_spritesheet "dust" 0
     (quiet_world []
        [(os_path_join OUTPUT_BASE "sprites/effects/dust.png", ImageFile two_pixels)])).1
    = Ok () ∧
  last (console (split_effect_spritesheet "dust" 0
     (quiet_world []
        [(os_path_join OUTPUT_BASE "sprites/effects/dust.png", ImageFile two_pixels)])).2)
    = Some "  [ERROR] Error splitting dust: integer division or modulo by zero".
Proof.
  destruct (effect_slicer_zero_frames "dust" two_pixels
     (quiet_world []
        [(os_path_join OUTPUT_BASE "sprites/effects/dust.png", ImageFile two_pixels)]))
    as (Hret & _ & Hlast).
  - reflexivity.
  - reflexivity.
  - left. reflexivity.
  - split; [exact Hret|exact Hlast].
Defined.

(** ** The frames of a fighter tile the sheet *)





(** ** From the extraction to the slicer *)



(** ** Making the directories *)




(** ** The runs of [main] that stop early *)

(** X15: when the source file does not exist, [main] prints its banner
    and that the source image was not found, and returns: it makes no
    directory and touches no file and no object. *)
Theorem main_without_source assets w :
  disk w !! SOURCE_IMAGE = None →
  main_from assets w =
  (Ok (),
   set_console (λ c, (((c ++ [banner]) ++ ["Clawdbot Arena Asset Extractor"]) ++ [banner])
                       ++ ["Error: Source image not found at " +:+ SOURCE_IMAGE]) w).
Proof.
  intros Hnone. unfold main_from.
  do 3 erewrite bind_ok by reflexivity.
  erewrite bind_ok; last first.
  { unfold os_path_exists. simpl. rewrite Hnone.
    rewrite bool_decide_eq_false_2 by (by intros [? ?]). reflexivity. }
  reflexivity.
Qed.

Lemma main_without_source_witness :
  disk (main (quiet_world [] [])).2 = ∅ ∧
  last (console (main (quiet_world [] [])).2) =
    Some ("Error: Source image not found at " +:+ SOURCE_IMAGE).
Proof.
  unfold main. rewrite (main_without_source ASSETS (quiet_world [] [])); [|reflexivity].
  split; reflexivity.
Defined.

(** [os.makedirs] and [print] add directories only. *)
Lemma preserves_only_directories (d0 : gmap string file) :
  preserves (λ w, ∀ p f, disk w !! p = Some f → f = Directory ∨ d0 !! p = Some f)
    create_directories.
Proof.
  apply preserves_for_each. intros d. apply preserves_bind.
  - intros w r w' H HJ. unfold os_makedirs in H.
    destruct (fault w _ _); [by injection H as <- <-|].
    destruct (disk w !! _) as [[]|] eqn:Hpath; injection H as <- <-; try done.
    simpl. intros p f. destruct (decide (os_path_join OUTPUT_BASE d = p)) as [<-|Hne].
    + rewrite lookup_insert_eq. intros [= <-]. by left.
    + rewrite lookup_insert_ne by done. apply HJ.
  - intros _. apply (preserves_print_disk
      (λ dk, ∀ p f, dk !! p = Some f → f = Directory ∨ d0 !! p = Some f)).
Qed.

(** X16: when the source path holds a file that is no image (and the
    directories can be made), [main] stops after step 2: it returns, its
    last line is that the extraction failed, and the only files it has
    added are directories: no asset, no frame and no manifest is written. *)
Theorem main_with_unreadable_source assets w f :
  disk w !! SOURCE_IMAGE = Some f → (∀ im, f ≠ ImageFile im) →
  (∀ w1, disk w1 = disk w → fault w1 = fault w → (create_directories w1).1 = Ok ()) →
  (main_from assets w).1 = Ok () ∧
  last (console (main_from assets w).2) = Some (nl +:+ "Asset extraction failed!") ∧
  ∀ p f', disk (main_from assets w).2 !! p = Some f' →
          f' = Directory ∨ disk w !! p = Some f'.
Proof.
  intros Hsrc Hnot Hdirs. unfold main_from.
  do 3 erewrite bind_ok by reflexivity.
  erewrite bind_ok; last first.
  { unfold os_path_exists. simpl. rewrite Hsrc.
    rewrite bool_decide_eq_true_2 by eauto. reflexivity. }
  cbn [negb]. erewrite bind_ok by reflexivity.
  match goal with |- context [(create_directories ≫= _) ?w1] =>
    pose proof (Hdirs w1 eq_refl eq_refl) as Hok;
    destruct (create_directories w1) as [[[]|e] w2] eqn:Hrun; [|done];
    pose proof (preserves_create_directories SOURCE_IMAGE f _ _ _ Hrun Hsrc) as Hsrc2;
    pose proof (preserves_only_directories (disk w) _ _ _ Hrun
                  (λ p f' Hp, or_intror Hp)) as Honly
  end.
  cbv beta in Hsrc2, Honly.
  erewrite bind_ok by exact Hrun.
  erewrite bind_ok by reflexivity.
  match goal with |- context [(extract_assets_from assets SOURCE_IMAGE ≫= _) ?wx] =>
    assert (∃ e, extract_assets_from assets SOURCE_IMAGE wx =
                 (Ok false,
                  set_console (λ c, (c ++ [nl +:+ "Loading source image: " +:+ SOURCE_IMAGE])
                                     ++ ["Error loading image: " +:+ exn_str e]) wx))
      as [e Hext]
  end.
  { unfold extract_assets_from. erewrite bind_ok by reflexivity.
    match goal with |- context [(try_except _ _ ≫= _) ?w0] =>
      destruct (load_source_raise SOURCE_IMAGE w0) as [e Hload]
    end.
    { intros im. simpl. rewrite Hsrc2. intros [= ->]. by apply (Hnot im). }
    exists e. erewrite bind_ok; last first.
    { unfold try_except. erewrite bind_raise by exact Hload. reflexivity. }
    reflexivity. }
  erewrite bind_ok by exact Hext.
  cbn [negb fst snd]. split; [done|]. split; [apply last_snoc|].
  simpl. exact Honly.
Qed.

Lemma main_with_unreadable_source_witness :
  (main broken_source_world).1 = Ok () ∧
  last (console (main broken_source_world).2) = Some (nl +:+ "Asset extraction failed!") ∧
  disk (main broken_source_world).2 !! os_path_join OUTPUT_BASE "animations.json" = None.
Proof.
  destruct (main_with_unreadable_source ASSETS broken_source_world (JsonFile (JInt 0)))
    as (Hret & Hlast & Honly).
  - reflexivity.
  - discriminate.
  - intros [hp dk cs ft]. simpl. intros -> ->. reflexivity.
  - split; [exact Hret|]. split; [exact Hlast|].
    destruct (disk (main broken_source_world).2
                !! os_path_join OUTPUT_BASE "animations.json") as [f'|] eqn:Hf; [|done].
    destruct (Honly _ _ Hf) as [->|Hold]; [|by vm_compute in Hold].
    vm_compute in Hf. discriminate Hf.
Defined.

(** ** Where [main] writes *)






Section outside_output_base.
Context (p : string) (o : option file).
Hypothesis Hp : ∀ s, p ≠ OUTPUT_BASE +:+ os_sep +:+ s.











End outside_output_base.



(** ** A table that fits the source *)



